(** * OneNote page exporter: content parser and PDF table segmentation

    A shallow embedding of [EnhancedOneNoteContentParser]
    (OneNote_ExporterV3.7.py) and of the column segmentation of
    [OneNoteContentParser._tables_pdf_enhanced] (app.py), with the
    properties of the specification stated and proved over it.

    Python [str] values are sequences of Unicode code points ([list N]),
    [bytes] values are [list byte], dictionaries with string keys are
    [gmap]s, sets are [gset]s.  An [xml.etree.ElementTree] element is a
    rose tree; object identity of an element inside the tree that is
    being iterated is its path from the root of the iteration.  Code
    that can raise runs in a monad of exceptions over a threaded state:
    the files and the error stream for the conversions, the story and
    the log for the PDF tables.  The calls into python-docx and
    reportlab are parameters. *)

From Stdlib Require Import ZArith NArith Lia Strings.Byte Ascii String.
From stdpp Require Import base option list gmap strings.

Set Warnings "-register-all".

Open Scope list_scope.

(** ** Python strings and bytes *)

Abbreviation pystr := (list N).
Abbreviation pybytes := (list byte).

Fixpoint py (s : string) : pystr :=
  match s with
  | EmptyString => []
  | String a s' => N_of_ascii a :: py s'
  end.

Fixpoint bytes_of (s : string) : pybytes :=
  match s with
  | EmptyString => []
  | String a s' => byte_of_ascii a :: bytes_of s'
  end.

Arguments py : simpl never.
Arguments bytes_of : simpl never.

#[global] Instance byte_eq_dec : EqDecision byte.
Proof.
  intros a b. destruct (Byte.eqb a b) eqn:E.
  - left. apply Byte.byte_dec_bl, E.
  - right. intros Hab. apply Byte.byte_dec_lb in Hab. congruence.
Defined.

Section ListOps.
Context {A : Type} `{EqDecision A}.

(** [s.startswith(pre)] *)
Fixpoint startswith (s pre : list A) {struct pre} : bool :=
  match pre, s with
  | [], _ => true
  | p :: pre', c :: s' => bool_decide (p = c) && startswith s' pre'
  | _ :: _, [] => false
  end.

(** [s.endswith(suf)] *)
Definition endswith (s suf : list A) : bool :=
  startswith (reverse s) (reverse suf).

(** [needle in hay] for two strings (or two bytes objects) *)
Fixpoint contains (needle hay : list A) : bool :=
  startswith hay needle ||
  match hay with
  | [] => false
  | _ :: hay' => contains needle hay'
  end.

(** [c in s] for a single character [c] *)
Definition char_in (c : A) (s : list A) : bool := bool_decide (c ∈ s).

(** [s.split(c)] for a one-character separator: never empty *)
Fixpoint py_split (c : A) (s : list A) : list (list A) :=
  match s with
  | [] => [[]]
  | x :: s' =>
      if bool_decide (x = c) then [] :: py_split c s'
      else match py_split c s' with
           | [] => [[x]]
           | p :: ps => (x :: p) :: ps
           end
  end.

(** [l[-1]] on the result of a split *)
Definition py_last (l : list (list A)) : list A := default [] (last l).

(** [sep.join(parts)] *)
Fixpoint py_join (sep : list A) (parts : list (list A)) : list A :=
  match parts with
  | [] => []
  | [p] => p
  | p :: ps => p ++ sep ++ py_join sep ps
  end.
End ListOps.

(** ** ElementTree elements *)

(** [el.tag] is a string for elements; comments and processing
    instructions carry a factory function instead ([TagOther]). *)
Inductive Tag :=
  | TagStr (s : pystr)
  | TagOther.

Inductive Element := mkElement {
  tag : Tag;
  attrib : gmap pystr pystr;
  text : option pystr;
  tail : option pystr;
  children : list Element
}.

Abbreviation path := (list nat).

(** A reference to an element met during an iteration: the element and
    where it sits below the element the iteration started from.  Two
    references denote the same object ([is]) iff their paths agree. *)
Abbreviation ref := (path * Element)%type.

(** [el.get(attr)] *)
Definition get (el : Element) (attr : pystr) : option pystr := attrib el !! attr.

(** [parent.iter()]: the element itself, then its subtree in document
    order *)
Fixpoint iter_at (p : path) (e : Element) : list ref :=
  (p, e) ::
  (fix kids (i : nat) (cs : list Element) : list ref :=
     match cs with
     | [] => []
     | c :: cs' => iter_at (p ++ [i]) c ++ kids (S i) cs'
     end) 0 (children e).

(** The inner loop of [iter_at], over the children from index [i] on. *)
Definition iter_kids (p : path) : nat -> list Element -> list ref :=
  fix kids (i : nat) (cs : list Element) : list ref :=
    match cs with
    | [] => []
    | c :: cs' => iter_at (p ++ [i]) c ++ kids (S i) cs'
    end.

Definition iter (e : Element) : list ref := iter_at [] e.

(** The elements strictly below [e], in document order. *)
Definition proper_descendants (e : Element) : list ref := List.tl (iter e).

(** [tag.split('}')[-1]] *)
Definition local_part (t : pystr) : pystr := py_last (py_split 125%N t).

(** ** [_findall_local] *)

Definition tag_matches (t : Tag) (local_name : pystr) : bool :=
  match t with
  | TagStr tag =>
      endswith tag (py "}" ++ local_name)
      || bool_decide (tag = local_name)
      || bool_decide (local_part tag = local_name)
  | TagOther => false
  end.

Definition keep_ref (local_name : pystr) (r : ref) : bool :=
  match tag r.2 with
  | TagStr tag =>
      tag_matches (TagStr tag) local_name
      && (negb (bool_decide (r.1 = [])) || negb (bool_decide (local_part tag = local_name)))
  | TagOther => false
  end.

Definition _findall_local (parent : Element) (local_name : pystr) : list ref :=
  List.filter (keep_ref local_name) (iter parent).

(** The part of an element's tag after its last ['}'] is [n]. *)
Definition has_local_name (n : pystr) (r : ref) : bool :=
  match tag r.2 with
  | TagStr t => bool_decide (local_part t = n)
  | TagOther => false
  end.

(** ** String helpers of the standard library *)

(** [str.isspace] on one code point; also the class [\s] of [re] on [str]
    patterns. *)
Definition isspace (c : N) : bool :=
  ((9 <=? c) && (c <=? 13) || (28 <=? c) && (c <=? 32)
   || (c =? 133) || (c =? 160) || (c =? 5760)
   || (8192 <=? c) && (c <=? 8202)
   || (c =? 8232) || (c =? 8233) || (c =? 8239) || (c =? 8287) || (c =? 12288))%N.

Fixpoint lstrip (s : pystr) : pystr :=
  match s with
  | [] => []
  | c :: s' => if isspace c then lstrip s' else s
  end.

(** [s.strip()] *)
Definition py_strip (s : pystr) : pystr := reverse (lstrip (reverse (lstrip s))).

(** Truth value of a string or of a list. *)
Definition nonempty {A : Type} (s : list A) : bool :=
  match s with
  | [] => false
  | _ :: _ => true
  end.

(** [s.replace(old, new)] for one-character [old] and [new] *)
Definition replace_char (old new : N) (s : pystr) : pystr :=
  (fun c => if (c =? old)%N then new else c) <$> s.

(** [re.sub(cls+, ' ', s)]: every maximal run of characters of the class
    becomes one space.  [in_run] tells that the previous character was in
    the class. *)
Fixpoint re_sub_runs (cls : N -> bool) (in_run : bool) (s : pystr) : pystr :=
  match s with
  | [] => []
  | c :: s' =>
      if cls c
      then (if in_run then re_sub_runs cls true s' else 32%N :: re_sub_runs cls true s')
      else c :: re_sub_runs cls false s'
  end.

(** [re.sub(r'<[^>]+>', '', s)].  [held] is the text read since a ['<']
    whose closing ['>'] has not been met yet, most recent character
    first.  A match needs one character at least between ['<'] and the
    first ['>'] after it; a ['<'] with no ['>'] after it stays. *)
Fixpoint re_sub_tags_go (held : option pystr) (s : pystr) : pystr :=
  match s with
  | [] => match held with
          | Some h => reverse h
          | None => []
          end
  | c :: s' =>
      match held with
      | None =>
          if (c =? 60)%N then re_sub_tags_go (Some [c]) s'
          else c :: re_sub_tags_go None s'
      | Some h =>
          if (c =? 62)%N then
            match h with
            | [_] => reverse h ++ c :: re_sub_tags_go None s'
            | _ => re_sub_tags_go None s'
            end
          else re_sub_tags_go (Some (c :: h)) s'
      end
  end.

Definition re_sub_tags (s : pystr) : pystr := re_sub_tags_go None s.

Definition ascii_upper_char (c : N) : N :=
  if ((97 <=? c) && (c <=? 122))%N then (c - 32)%N else c.

Definition ascii_lower_char (c : N) : N :=
  if ((65 <=? c) && (c <=? 90))%N then (c + 32)%N else c.

(** [s.upper()] and [s.capitalize()]; the source applies them to the
    literals ['colspan'] and ['rowspan'] only, where the ASCII rule is
    the whole of their behaviour. *)
Definition py_upper (s : pystr) : pystr := ascii_upper_char <$> s.

Definition py_capitalize (s : pystr) : pystr :=
  match s with
  | [] => []
  | c :: s' => ascii_upper_char c :: (ascii_lower_char <$> s')
  end.

(** ** The library functions the parser calls

    Their results on the arguments the parser passes are all the parser
    depends on; an exception raised by one of them is [None]. *)
Record PyLib := {
  (** [html.unescape] on a string that holds an ['&'] *)
  unescape_charrefs : pystr -> pystr;
  (** [int(s)]; [None] is [ValueError] *)
  py_int : pystr -> option Z;
  (** [base64.b64decode(s)]; [None] when it raises *)
  b64decode : pystr -> option pybytes;
  (** [s.lower()] *)
  str_lower : pystr -> pystr;
  (** [ET.fromstring(xml)]; [None] is [ParseError] *)
  fromstring : pystr -> option Element
}.

(** ** Image format detection *)

(** [self.supported_image_extensions], in insertion order, which is the
    order [dict.items()] yields. *)
Definition supported_image_extensions : list (pybytes * pystr) :=
  [ ([xff; xd8; xff], py ".jpg");
    ([x89; x50; x4e; x47; x0d; x0a; x1a; x0a], py ".png");
    (bytes_of "GIF87a", py ".gif");
    (bytes_of "GIF89a", py ".gif");
    ([x00; x00; x01; x00], py ".ico");
    (bytes_of "BM", py ".bmp");
    (bytes_of "RIFF", py ".webp") ].

Fixpoint first_signature (data : pybytes) (table : list (pybytes * pystr)) : option pystr :=
  match table with
  | [] => None
  | (signature, ext) :: table' =>
      if startswith data signature then Some ext else first_signature data table'
  end.

Definition _detect_image_format (data : pybytes) : pystr :=
  match first_signature data supported_image_extensions with
  | Some ext => ext
  | None =>
      if startswith data (bytes_of "RIFF") && contains (bytes_of "WEBP") (take 12 data)
      then py ".webp"
      else py ".png"
  end.

(** The known signatures as the specification lists them (JPEG, PNG,
    GIF87a, GIF89a, ICO, BMP, RIFF with the WEBP marker): the first six
    entries of the table, and ['RIFF'] only together with ['WEBP'] in
    the first 12 bytes, which is the test the source makes after its
    loop over the table. *)
Definition spec_known_signature (data : pybytes) : bool :=
  existsb (startswith data)
    [ [xff; xd8; xff];
      [x89; x50; x4e; x47; x0d; x0a; x1a; x0a];
      bytes_of "GIF87a";
      bytes_of "GIF89a";
      [x00; x00; x01; x00];
      bytes_of "BM" ]
  || startswith data (bytes_of "RIFF") && contains (bytes_of "WEBP") (take 12 data).

(** ** Text cleaning and table extraction *)

Section Parser.
Context (L : PyLib).

(** [html.unescape]: a string without ['&'] is returned as it is. *)
Definition html_unescape (s : pystr) : pystr :=
  if char_in 38%N s then unescape_charrefs L s else s.

Definition _clean_text_content (text : pystr) : pystr :=
  if negb (nonempty text) then []
  else
    let text := html_unescape text in
    let text := re_sub_tags text in
    let text := replace_char 8212 8212 (replace_char 8211 45 (replace_char 8226 8226 text)) in
    let text := replace_char 8221 34 (replace_char 8220 34 text) in
    let text := replace_char 8217 39 (replace_char 8216 39 text) in
    let text := re_sub_runs (fun c => (c =? 9) || (c =? 11) || (c =? 12))%N false text in
    py_strip text.

(** The pair [(text_parts, seen_texts)] of [_extract_cell_text_enhanced]
    and the guarded append both of its loops perform. *)
Definition remember (clean_text : pystr) (st : list pystr * gset pystr)
  : list pystr * gset pystr :=
  if nonempty clean_text && negb (bool_decide (clean_text ∈ st.2))
  then (st.1 ++ [clean_text], {[clean_text]} ∪ st.2)
  else st.

Definition remember_text (raw : option pystr) (need_nonblank : bool)
    (st : list pystr * gset pystr) : list pystr * gset pystr :=
  match raw with
  | Some t =>
      if nonempty t && (negb need_nonblank || nonempty (py_strip t))
      then remember (_clean_text_content t) st
      else st
  | None => st
  end.

Fixpoint collect_text_recursive (elem : Element) (st : list pystr * gset pystr)
  : list pystr * gset pystr :=
  match elem with
  | mkElement _ _ txt _ cs =>
      (fix over_children (cs : list Element) (st : list pystr * gset pystr) :=
         match cs with
         | [] => st
         | child :: cs' =>
             over_children cs'
               (remember_text (tail child) true (collect_text_recursive child st))
         end) cs (remember_text txt true st)
  end.

Definition _extract_cell_text_enhanced (cell_elem : Element) : pystr :=
  let st1 :=
    foldl (fun st (t_elem : ref) => remember_text (text t_elem.2) false st)
          ([], ∅) (_findall_local cell_elem (py "T")) in
  let st2 := if nonempty st1.1 then st1 else collect_text_recursive cell_elem st1 in
  py_strip (re_sub_runs isspace false (py_join (py " ") st2.1)).

Fixpoint first_span (cell_elem : Element) (span_attrs : list pystr) : Z :=
  match span_attrs with
  | [] => 1
  | attr :: rest =>
      match get cell_elem attr with
      | Some (c :: v) =>
          match py_int L (c :: v) with
          | Some k => k
          | None => 1
          end
      | _ => first_span cell_elem rest
      end
  end.

Definition _get_cell_span (cell_elem : Element) (span_type : pystr) : Z :=
  first_span cell_elem [span_type; py_upper span_type; py_capitalize span_type].

(** What one cell adds to [row_data]: its text, then [colspan - 1]
    blanks ([range] of a non-positive number is empty). *)
Definition cell_entries (cell_elem : Element) : list pystr :=
  let cell_text := _extract_cell_text_enhanced cell_elem in
  let colspan := _get_cell_span cell_elem (py "colspan") in
  let rowspan := _get_cell_span cell_elem (py "rowspan") in
  cell_text :: replicate (Z.to_nat (colspan - 1)) [].

(** The column-span attribute of a cell as the specification speaks of
    it: the value of the first of the spellings [colspan], [COLSPAN],
    [Colspan] that is present and not empty. *)
Definition colspan_attribute (cell_elem : Element) : option pystr :=
  head (omap (fun attr => match get cell_elem attr with
                          | Some (c :: v) => Some (c :: v)
                          | _ => None
                          end)
             [py "colspan"; py "COLSPAN"; py "Colspan"]).

Definition row_data_of (row_elem : Element) : list pystr :=
  flat_map (fun cell : ref => cell_entries cell.2) (_findall_local row_elem (py "Cell")).

Definition row_signature (row_data : list pystr) : pystr :=
  if (3 <=? length row_data)%nat then py_join (py "|") (take 3 row_data)
  else py_join (py "|") row_data.

(** One turn of the loop over the rows, on [(rows, seen_row_signatures)]. *)
Definition add_row (st : list (list pystr) * gset pystr) (row_data : list pystr)
  : list (list pystr) * gset pystr :=
  let sig := row_signature row_data in
  if nonempty row_data
     && existsb (fun cell => nonempty (py_strip cell)) row_data
     && negb (bool_decide (sig ∈ st.2))
  then (st.1 ++ [row_data], {[sig]} ∪ st.2)
  else st.

Definition _extract_table_data_enhanced (table_elem : Element) : list (list pystr) :=
  (foldl add_row ([], ∅)
     ((fun row_elem : ref => row_data_of row_elem.2) <$> _findall_local table_elem (py "Row"))).1.
End Parser.

(** ** Image extraction *)

Definition image_attributes : list pystr :=
  py <$> ["data"; "Data"; "binaryData"; "base64Data"; "imageData";
          "src"; "source"; "content"; "bytes"; "binary"]%string.

(** [string.ascii_letters + string.digits + '+/='] *)
Definition valid_chars : pystr :=
  py "abcdefghijklmnopqrstuvwxyzABCDEFGHIJKLMNOPQRSTUVWXYZ0123456789+/=".

Definition _looks_like_base64 (text : pystr) : bool :=
  if (length text <? 100)%nat then false
  else forallb (fun c => char_in c valid_chars) (take 100 text).

(** The test the scan of the subtree makes before it decodes a text. *)
Definition scan_guard (text : pystr) : bool :=
  (100 <? length text)%nat && _looks_like_base64 text.

Section ImageExtraction.
Context (L : PyLib).

(** The body of each [try]: decode, keep the result when it is longer
    than 100 bytes; a decoding error moves on like a short result. *)
Definition try_decode (value : pystr) : option (pybytes * pystr) :=
  match b64decode L value with
  | Some data =>
      if (100 <? length data)%nat then Some (data, _detect_image_format data) else None
  | None => None
  end.

Fixpoint from_attributes (img_elem : Element) (attrs : list pystr)
  : option (pybytes * pystr) :=
  match attrs with
  | [] => None
  | attr :: rest =>
      match get img_elem attr with
      | Some (c :: v) =>
          match try_decode (c :: v) with
          | Some found => Some found
          | None => from_attributes img_elem rest
          end
      | _ => from_attributes img_elem rest
      end
  end.

Definition tag_has_keyword (t : Tag) : bool :=
  match t with
  | TagStr tag =>
      existsb (fun keyword => contains keyword (str_lower L tag))
              (py <$> ["data"; "binary"; "content"]%string)
  | TagOther => false
  end.

Fixpoint from_children (cs : list Element) : option (pybytes * pystr) :=
  match cs with
  | [] => None
  | child :: rest =>
      match text child with
      | Some (c :: v) =>
          if tag_has_keyword (tag child) then
            match try_decode (c :: v) with
            | Some found => Some found
            | None => from_children rest
            end
          else from_children rest
      | _ => from_children rest
      end
  end.

(** The scan of [img_elem.iter()].  The first component lists the
    texts handed to [b64decode], in order. *)
Fixpoint from_descendants (ds : list ref) : list pystr * option (pybytes * pystr) :=
  match ds with
  | [] => ([], None)
  | descendant :: rest =>
      match text descendant.2 with
      | Some (c :: v) =>
          if negb (bool_decide (descendant.1 = [])) then
            let text := py_strip (c :: v) in
            if scan_guard text then
              match try_decode text with
              | Some found => ([text], Some found)
              | None => let r := from_descendants rest in (text :: r.1, r.2)
              end
            else from_descendants rest
          else from_descendants rest
      | _ => from_descendants rest
      end
  end.

Definition _extract_image_data_enhanced (img_elem : Element) : option (pybytes * pystr) :=
  match from_attributes img_elem image_attributes with
  | Some found => Some found
  | None =>
      match from_children (children img_elem) with
      | Some found => Some found
      | None => (from_descendants (iter img_elem)).2
      end
  end.

(** The strings the three search stages consider as payloads. *)
Definition candidate_payloads (img_elem : Element) : list pystr :=
  omap (fun attr => match get img_elem attr with
                    | Some (c :: v) => Some (c :: v)
                    | _ => None
                    end) image_attributes
  ++ omap (fun child => match text child with
                        | Some (c :: v) =>
                            if tag_has_keyword (tag child) then Some (c :: v) else None
                        | _ => None
                        end) (children img_elem)
  ++ omap (fun d : ref => match text d.2 with
                          | Some (c :: v) =>
                              if scan_guard (py_strip (c :: v)) then Some (py_strip (c :: v))
                              else None
                          | _ => None
                          end) (proper_descendants img_elem).
End ImageExtraction.

(** ** Reference behaviour of the library functions

    [a2b_base64] follows [binascii.a2b_base64] in its default, lenient
    mode, which [base64.b64decode] calls: characters outside the alphabet
    are skipped, a complete pad sequence ends the input, and leftover
    sextets are an error. *)
Module Reference.

Definition table_a2b_base64 (c : N) : option N :=
  (if (65 <=? c) && (c <=? 90) then Some (c - 65)
   else if (97 <=? c) && (c <=? 122) then Some (c - 71)
   else if (48 <=? c) && (c <=? 57) then Some (c + 4)
   else if c =? 43 then Some 62
   else if c =? 47 then Some 63
   else None)%N.

Definition to_byte (n : N) : byte := default x00 (Byte.of_N (n mod 256)%N).

Record b64state := { quad_pos : nat; leftchar : N; pads : nat; out : pybytes }.

Fixpoint a2b_loop (st : b64state) (s : pystr) : option pybytes :=
  match s with
  | [] => if (quad_pos st =? 0)%nat then Some (reverse (out st)) else None
  | c :: s' =>
      if (c =? 61)%N then
        if (2 <=? quad_pos st)%nat then
          if (4 <=? quad_pos st + S (pads st))%nat then Some (reverse (out st))
          else a2b_loop {| quad_pos := quad_pos st; leftchar := leftchar st;
                           pads := S (pads st); out := out st |} s'
        else a2b_loop st s'
      else
        match table_a2b_base64 c with
        | None => a2b_loop st s'
        | Some this_ch =>
            match quad_pos st with
            | 0%nat =>
                a2b_loop {| quad_pos := 1; leftchar := this_ch; pads := 0;
                            out := out st |} s'
            | 1%nat =>
                a2b_loop {| quad_pos := 2; leftchar := N.land this_ch 15; pads := 0;
                            out := to_byte (N.lor (N.shiftl (leftchar st) 2)
                                                  (N.shiftr this_ch 4)) :: out st |} s'
            | 2%nat =>
                a2b_loop {| quad_pos := 3; leftchar := N.land this_ch 3; pads := 0;
                            out := to_byte (N.lor (N.shiftl (leftchar st) 4)
                                                  (N.shiftr this_ch 2)) :: out st |} s'
            | _ =>
                a2b_loop {| quad_pos := 0; leftchar := 0; pads := 0;
                            out := to_byte (N.lor (N.shiftl (leftchar st) 6) this_ch)
                                   :: out st |} s'
            end
        end
  end.

Definition a2b_base64 (s : pystr) : option pybytes :=
  a2b_loop {| quad_pos := 0; leftchar := 0; pads := 0; out := [] |} s.

(** [base64.b64decode] of a [str]: it must be ASCII. *)
Definition base64_b64decode (s : pystr) : option pybytes :=
  if forallb (fun c => c <? 128)%N s then a2b_base64 s else None.

Fixpoint digits_value (acc : Z) (s : pystr) : option Z :=
  match s with
  | [] => Some acc
  | c :: s' =>
      if ((48 <=? c) && (c <=? 57))%N
      then digits_value (acc * 10 + (Z.of_N c - 48)) s'
      else None
  end.

(** [int] on plain decimal literals: ASCII digits, an optional sign,
    white space around. *)
Definition int_decimal (s : pystr) : option Z :=
  match py_strip s with
  | [] => None
  | 43%N :: d :: ds => digits_value 0 (d :: ds)
  | 45%N :: d :: ds => Z.opp <$> digits_value 0 (d :: ds)
  | ds => digits_value 0 ds
  end.

(** The library as the examples of this file need it: their strings
    hold no ['&'] and their tags are ASCII; [fromstring] is tabulated
    on the document texts that occur below, of which only the empty
    page is well formed. *)
Definition lib : PyLib := {|
  unescape_charrefs := fun s => s;
  py_int := int_decimal;
  b64decode := base64_b64decode;
  str_lower := fmap ascii_lower_char;
  fromstring := fun xml =>
    if bool_decide (xml = py "<Page/>")
    then Some (mkElement (TagStr (py "Page")) ∅ None None [])
    else None
|}.
End Reference.

(** ** Effects: exceptions over a threaded state *)

Inductive Exc :=
  | ParseError
  | RecursionError
  | OtherException (what : pystr).

Definition M (S A : Type) : Type := S -> (Exc + A) * S.

Definition ret {S A : Type} (a : A) : M S A := fun s => (inr a, s).

Definition bind {S A B : Type} (c : M S A) (k : A -> M S B) : M S B :=
  fun s =>
    match c s with
    | (inr a, s') => k a s'
    | (inl e, s') => (inl e, s')
    end.

Definition raise {S A : Type} (e : Exc) : M S A := fun s => (inl e, s).

(** [try: body / except Exception as e: handler(e)] *)
Definition try_except {S A : Type} (body : M S A) (handler : Exc -> M S A) : M S A :=
  fun s =>
    match body s with
    | (inr a, s') => (inr a, s')
    | (inl e, s') => handler e s'
    end.

(** A computation keeps a property of the state, however it ends. *)
Definition preserves {S A : Type} (I : S -> Prop) (c : M S A) : Prop :=
  forall s, I s -> I (c s).2.

Declare Scope py_scope.
Delimit Scope py_scope with pym.
Notation "x <- c ;; k" := (bind c (fun x => k))
  (at level 100, c at next level, right associativity) : py_scope.
Notation "c ;;; k" := (bind c (fun _ => k))
  (at level 100, right associativity) : py_scope.

(** ** The walk in document order *)

(** ['table'], ['image'], ['text']: the first argument of the callback *)
Inductive Kind := KTable | KImage | KText.

(** An element handed to the callback: where it sits below the root, and
    the elements above it, nearest first. *)
Record Node := {
  n_path : path;
  n_elem : Element;
  n_ancestors : list Element
}.

(** [hasattr(current, 'getparent')].  The parser's [ET] is
    [xml.etree.ElementTree], whose elements keep no link to their parent
    and have no [getparent] method. *)
Definition etree_has_getparent : bool := false.

Definition tag_is_target (t : Tag) (targets : list pystr) : bool :=
  match t with
  | TagStr tag_name =>
      existsb (fun target => endswith tag_name (py "}" ++ target)
                             || bool_decide (tag_name = target)) targets
  | TagOther => false
  end.

(** The loop of [_is_inside_element] over [current]: [chain] is the
    element followed by what [getparent] would return, step by step. *)
Fixpoint inside_chain (has_getparent : bool) (chain : list Element)
    (targets : list pystr) : bool :=
  match chain with
  | [] => false
  | current :: up =>
      if tag_is_target (tag current) targets then true
      else if has_getparent then inside_chain has_getparent up targets
      else false
  end.

Definition _is_inside_element (has_getparent : bool) (element : Node)
    (targets : list pystr) : bool :=
  inside_chain has_getparent (n_elem element :: n_ancestors element) targets.

Section Walk.
Context {S : Type}.
Context (has_getparent : bool).
Context (processor_func : Kind -> Node -> M S unit).

Open Scope py_scope.

Definition dispatch (tag_name : pystr) (me : Node) : M S unit :=
  let local_name := if char_in 125%N tag_name then local_part tag_name else tag_name in
  if bool_decide (local_name = py "Table") then processor_func KTable me
  else if bool_decide (local_name = py "Image") then processor_func KImage me
  else if bool_decide (local_name ∈ [py "OE"; py "T"])
          && negb (_is_inside_element has_getparent me [py "Table"])
       then processor_func KText me
  else ret tt.

(** [process_element] calls itself once per level of nesting, and the
    interpreter lets calls nest only so deep ([sys.getrecursionlimit]
    less the calls that are open already).  [frames] counts the
    levels of [process_element] it can still run, what a level calls
    itself being provided for; a call made when no level is left
    raises [RecursionError] before its body runs.  Nothing in the walk
    catches it. *)
Fixpoint process_element (frames : nat) (ancestors : list Element) (p : path)
    (elem : Element) {struct elem} : M S unit :=
  match frames with
  | O => raise RecursionError
  | Datatypes.S frames' =>
      match elem with
      | mkElement TagOther _ _ _ _ => ret tt
      | mkElement (TagStr tag_name) _ _ _ cs =>
          dispatch tag_name {| n_path := p; n_elem := elem; n_ancestors := ancestors |} ;;;
          (fix over_children (i : nat) (cs : list Element) : M S unit :=
             match cs with
             | [] => ret tt
             | child :: cs' =>
                 process_element frames' (elem :: ancestors) (p ++ [i]) child ;;;
                 over_children (Datatypes.S i) cs'
             end) 0%nat cs
      end
  end.

Fixpoint process_children (frames : nat) (parent_chain : list Element) (p : path)
    (i : nat) (cs : list Element) : M S unit :=
  match cs with
  | [] => ret tt
  | child :: cs' =>
      process_element frames parent_chain (p ++ [i]) child ;;;
      process_children frames parent_chain p (Datatypes.S i) cs'
  end.

(** The walk, called when the interpreter can still run [frames]
    levels; its own call takes the first of them. *)
Definition _process_content_in_original_order (frames : nat) (root : Element)
  : M S unit :=
  match frames with
  | O => raise RecursionError
  | Datatypes.S frames' => process_children frames' [root] [] 0 (children root)
  end.
End Walk.



(** The calls the walk makes, in order: the callback that only records. *)
Definition record_call (k : Kind) (n : Node) : M (list (Kind * Node)) unit :=
  fun calls => (inr tt, calls ++ [(k, n)]).

Definition emitted_units (frames : nat) (has_getparent : bool) (root : Element)
  : list (Kind * Node) :=
  (_process_content_in_original_order has_getparent record_call frames root []).2.

(** An element whose local tag name is [Table]. *)
Definition is_table (e : Element) : bool :=
  match tag e with
  | TagStr t => bool_decide (local_part t = py "Table")
  | TagOther => false
  end.

(** ** Page conversion *)

(** What a conversion can touch: the files, the error stream, and the
    objects of python-docx and reportlab it builds ([heap]). *)
Record World (H : Type) := mkWorld {
  fs : gmap pystr pybytes;
  stderr : list pystr;
  heap : H
}.
Arguments mkWorld {H} _ _ _.
Arguments fs {H} _.
Arguments stderr {H} _.
Arguments heap {H} _.

(** The calls into python-docx and reportlab, and the unit renderers
    built on them.  Each may change the world in any way and may raise. *)
Record Renderers (H : Type) := {
  docx_Document : M (World H) unit;
  docx_add_heading : pystr -> M (World H) unit;
  docx_save : pystr -> M (World H) unit;
  _process_table_for_word : Node -> M (World H) unit;
  _process_image_for_word : Node -> M (World H) unit;
  _process_text_for_word : Node -> M (World H) unit;
  pdf_styles : M (World H) unit;
  pdf_SimpleDocTemplate : pystr -> M (World H) unit;
  pdf_story_title : pystr -> M (World H) unit;
  pdf_build : M (World H) unit;
  _process_table_for_pdf : Node -> M (World H) unit;
  _process_image_for_pdf : Node -> M (World H) unit;
  _process_text_for_pdf : Node -> M (World H) unit
}.
Arguments docx_Document {H} _.
Arguments docx_add_heading {H} _ _.
Arguments docx_save {H} _ _.
Arguments _process_table_for_word {H} _ _.
Arguments _process_image_for_word {H} _ _.
Arguments _process_text_for_word {H} _ _.
Arguments pdf_styles {H} _.
Arguments pdf_SimpleDocTemplate {H} _ _.
Arguments pdf_story_title {H} _ _.
Arguments pdf_build {H} _.
Arguments _process_table_for_pdf {H} _ _.
Arguments _process_image_for_pdf {H} _ _.
Arguments _process_text_for_pdf {H} _ _.

Section Conversion.
Context {H : Type} (L : PyLib) (R : Renderers H).

(** The number of nested calls the interpreter still allows when a
    conversion calls the walk. *)
Context (frames : nat).

Open Scope py_scope.

(** [self.logger.error], [self.logger.warning] and
    [traceback.print_exc] write a line to the error stream. *)
Definition write_stderr (line : pystr) : M (World H) unit :=
  fun w => (inr tt, mkWorld (fs w) (stderr w ++ [line]) (heap w)).

Definition logger_error : pystr -> M (World H) unit := write_stderr.
Definition logger_warning : pystr -> M (World H) unit := write_stderr.
Definition traceback_print_exc : M (World H) unit := write_stderr (py "Traceback").

Definition ET_fromstring (xml : pystr) : M (World H) Element :=
  match fromstring L xml with
  | Some root => ret root
  | None => raise ParseError
  end.

Definition _word_content_processor (include_images : bool)
    (element_type : Kind) (element : Node) : M (World H) unit :=
  try_except
    (match element_type with
     | KTable => _process_table_for_word R element
     | KImage => if include_images then _process_image_for_word R element else ret tt
     | KText => _process_text_for_word R element
     end)
    (fun e => logger_warning (py "element failed")).

Definition parse_page_to_docx (xml page_name out_path : pystr)
    (include_images : bool) : M (World H) bool :=
  try_except
    (root <- ET_fromstring xml ;;
     docx_Document R ;;;
     docx_add_heading R page_name ;;;
     _process_content_in_original_order etree_has_getparent
       (_word_content_processor include_images) frames root ;;;
     docx_save R out_path ;;;
     ret true)
    (fun e => logger_error (py "DOCX") ;;; traceback_print_exc ;;; ret false).

Definition _pdf_content_processor (include_images : bool)
    (element_type : Kind) (element : Node) : M (World H) unit :=
  try_except
    (match element_type with
     | KTable => _process_table_for_pdf R element
     | KImage => if include_images then _process_image_for_pdf R element else ret tt
     | KText => _process_text_for_pdf R element
     end)
    (fun e => logger_warning (py "PDF element failed")).

Definition parse_page_to_pdf (xml page_name out_path : pystr)
    (include_images : bool) : M (World H) bool :=
  try_except
    (root <- ET_fromstring xml ;;
     pdf_styles R ;;;
     pdf_SimpleDocTemplate R out_path ;;;
     pdf_story_title R page_name ;;;
     _process_content_in_original_order etree_has_getparent
       (_pdf_content_processor include_images) frames root ;;;
     pdf_build R ;;;
     ret true)
    (fun e => logger_error (py "PDF") ;;; traceback_print_exc ;;; ret false).
End Conversion.

(** ** Loops and comprehensions whose body may raise *)

Section Loops.
Context {S A B : Type}.

Open Scope py_scope.

(** [for x in l: body(x)] *)
Fixpoint for_each (body : A -> M S unit) (l : list A) : M S unit :=
  match l with
  | [] => ret tt
  | x :: l' => body x ;;; for_each body l'
  end.

(** [for i, x in enumerate(l): body(i, x)], counting from [i] *)
Fixpoint for_enumerate (body : nat -> A -> M S unit) (i : nat) (l : list A) : M S unit :=
  match l with
  | [] => ret tt
  | x :: l' => body i x ;;; for_enumerate body (Datatypes.S i) l'
  end.

(** [[f(x) for x in l]], also written as a loop that appends *)
Fixpoint comprehension (f : A -> M S B) (l : list A) : M S (list B) :=
  match l with
  | [] => ret []
  | x :: l' => y <- f x ;; ys <- comprehension f l' ;; ret (y :: ys)
  end.

(** [[f(i, x) for i, x in enumerate(l)]], counting from [i] *)
Fixpoint comprehension_enumerate (f : nat -> A -> M S B) (i : nat) (l : list A)
  : M S (list B) :=
  match l with
  | [] => ret []
  | x :: l' =>
      y <- f i x ;; ys <- comprehension_enumerate f (Datatypes.S i) l' ;; ret (y :: ys)
  end.
End Loops.

(** ** reportlab: paragraphs, tables and the story

    A story is the list of flowables a PDF is built from.  [Paragraph]
    reads its text as markup and raises on a text it cannot read, so
    whether a call returns depends on the text; the calls that build a
    table ([Table], [TableStyle], [setStyle], [KeepInFrame]) depend on
    the grid of paragraphs they are given.  The constructors of styles
    and of spacers only store their arguments. *)

Inductive Style :=
  | StyleNormal
  | StyleTableCell
  | StyleTableHeader
  | StyleSegmentTitle
  | StyleTruncateNote.

(** A paragraph that was built: its style and its text. *)
Abbreviation Para := (Style * pystr)%type.

Inductive Flowable :=
  | FParagraph (para : Para)
  | FSpacer (height : nat)
  | FTable (table_flow : list (list Para))
  | FKeepInFrame (table_flow : list (list Para)).

Record ReportLab := {
  (** [Paragraph(text, style)] returns; [false] when it raises *)
  Paragraph_accepts : Style -> pystr -> bool;
  (** the calls that build a table from [table_flow] return; [false]
      when one of them raises *)
  Table_accepts : list (list Para) -> bool
}.

(** What a table renderer writes to: the story and the log. *)
Record Output := mkOutput {
  story : list Flowable;
  logged : list pystr
}.

(** The tables of a story, each as the texts of its cells. *)
Definition tables_of (story : list Flowable) : list (list (list pystr)) :=
  omap (fun f => match f with
                 | FTable table_flow | FKeepInFrame table_flow =>
                     Some ((fun row : list Para => snd <$> row) <$> table_flow)
                 | _ => None
                 end) story.

(** A text without ['<'] and without ['&']: no markup for [Paragraph]
    to read. *)
Definition plain (text : pystr) : bool :=
  negb (char_in 60%N text) && negb (char_in 38%N text).

(** A grid with a row at least, a cell at least in its first row, and
    all rows as long as the first. *)
Definition rectangular {A : Type} (grid : list (list A)) : bool :=
  match grid with
  | [] => false
  | first :: rest =>
      nonempty first && forallb (fun row => (length row =? length first)%nat) rest
  end.

(** The library reads every plain text as a paragraph. *)
Definition accepts_plain_text (RL : ReportLab) : Prop :=
  forall style text, plain text = true -> Paragraph_accepts RL style text = true.

(** The library reads every cell text of [grid] as a paragraph, in the
    form [shown] in which the renderer hands it over. *)
Definition accepts_cells (RL : ReportLab) (shown : pystr -> pystr)
    (grid : list (list pystr)) : Prop :=
  forall style row cell_text,
    row ∈ grid -> cell_text ∈ row -> Paragraph_accepts RL style (shown cell_text) = true.

(** The library builds a table from every rectangular grid. *)
Definition builds_rectangular (RL : ReportLab) : Prop :=
  forall table_flow, rectangular table_flow = true -> Table_accepts RL table_flow = true.

Section Story.
Context (RL : ReportLab).

Definition Paragraph (text : pystr) (style : Style) : M Output Para :=
  if Paragraph_accepts RL style text then ret (style, text)
  else raise (OtherException (py "ValueError")).

(** [story.append(f)] *)
Definition story_append (f : Flowable) : M Output unit :=
  fun o => (inr tt, mkOutput (story o ++ [f]) (logged o)).

(** [self.logger.debug], [warning] and [error] *)
Definition logger (line : pystr) : M Output unit :=
  fun o => (inr tt, mkOutput (story o) (logged o ++ [line])).
End Story.

(** [str(n)] for a number that is not negative: its decimal digits *)
Fixpoint digits_of (fuel n : nat) (acc : pystr) : pystr :=
  match fuel with
  | O => acc
  | S fuel' =>
      let acc' := (48 + N.of_nat (n mod 10))%N :: acc in
      if (n / 10 =? 0)%nat then acc' else digits_of fuel' (n / 10) acc'
  end.

Definition py_str (n : nat) : pystr := digits_of (S n) n [].

(** ** app.py: the tables of [OneNoteContentParser._tables_pdf_enhanced]

    [OneNoteContentParser._findall_local] is the same text as the one of
    the enhanced parser. *)
Module App.

(** [s.replace(old, new)] for a non-empty [old]; [skip] counts the
    characters of a replaced occurrence still to be passed over. *)
Fixpoint py_replace_go (old new : pystr) (skip : nat) (s : pystr) : pystr :=
  match s with
  | [] => []
  | c :: s' =>
      match skip with
      | S k => py_replace_go old new k s'
      | O =>
          if startswith s old
          then new ++ py_replace_go old new (length old - 1) s'
          else c :: py_replace_go old new 0 s'
      end
  end.

Definition py_replace (old new s : pystr) : pystr := py_replace_go old new 0 s.

(** [s.rfind(c, 0, stop)] *)
Definition rfind_char (c : N) (s : pystr) (stop : nat) : Z :=
  (fix go (i : Z) (s : pystr) (best : Z) : Z :=
     match s with
     | [] => best
     | x :: s' => go (i + 1)%Z s' (if (x =? c)%N then i else best)
     end) 0%Z (take stop s) (-1)%Z.

Definition MAX_CELL_LENGTH : nat := 300.
Definition MAX_ROWS : nat := 120.

(** [row[start:end]] for [0 <= start] and [0 <= end] *)
Definition slice {A : Type} (start_col end_col : nat) (row : list A) : list A :=
  take (end_col - start_col) (drop start_col row).

(** [list(range(0, stop, step))]; [None] is the [ValueError] of a zero
    step. *)
Definition py_range (stop step : nat) : option (list nat) :=
  if (step =? 0)%nat then None
  else Some ((fun i => i * step)%nat <$> seq 0 ((stop + step - 1) / step)).

Record Segment := {
  start_col : nat;
  end_col : nat;
  segment_data : list (list pystr)
}.

Definition segment_width (sg : Segment) : nat := end_col sg - start_col sg.

Section Tables.
Context (L : PyLib).

Definition _extract_clean_cell_text (cell_elem : Element) : pystr :=
  let parts :=
    foldl (fun (st : list pystr * gset pystr) (t_elem : ref) =>
             match text t_elem.2 with
             | Some (c :: v) =>
                 remember (re_sub_tags (py_strip (html_unescape L (c :: v)))) st
             | _ => st
             end)
          ([], ∅) (_findall_local cell_elem (py "T")) in
  py_strip (re_sub_runs isspace false (py_join (py " ") parts.1)).

Definition _parse_table_rows_clean (table_elem : Element) : list (list pystr) :=
  List.filter
    (fun row_data => nonempty row_data
                     && existsb (fun cell => nonempty (py_strip cell)) row_data)
    ((fun row_elem : ref =>
        (fun cell_elem : ref => _extract_clean_cell_text cell_elem.2)
          <$> _findall_local row_elem.2 (py "Cell"))
       <$> _findall_local table_elem (py "Row")).

Definition _clean_cell_text_for_pdf (text : pystr) : pystr :=
  if negb (nonempty text) then py " "
  else
    let marker := py "<<<LINEBREAK>>>" in
    let text := re_sub_tags (html_unescape L text) in
    let text := py_replace [10%N] marker
                  (py_replace [13%N] marker (py_replace [13%N; 10%N] marker text)) in
    let text := re_sub_runs isspace false text in
    let text := py_replace marker (py " ") text in
    let text := py_strip (re_sub_runs isspace false text) in
    let text := replace_char 8212 8212 (replace_char 8211 45 (replace_char 8226 8226 text)) in
    let text := replace_char 8221 34 (replace_char 8220 34 text) in
    let text := replace_char 8217 39 (replace_char 8216 39 text) in
    let text :=
      if (MAX_CELL_LENGTH <? length text)%nat then
        let truncate_pos := rfind_char 32%N text (MAX_CELL_LENGTH - 3) in
        if (210 <? truncate_pos)%Z
        then take (Z.to_nat truncate_pos) text ++ py "..."
        else take (MAX_CELL_LENGTH - 3) text ++ py "..."
      else text in
    if nonempty text then text else py " ".

(** The rows kept by the loop over [rows_data]: a row whose
    ['|'.join] was met before is dropped. *)
Definition keep_unique (st : list (list pystr) * gset pystr) (row : list pystr)
  : list (list pystr) * gset pystr :=
  let row_key := py_join (py "|") row in
  if bool_decide (row_key ∈ st.2) then st
  else (st.1 ++ [row], {[row_key]} ∪ st.2).

Definition unique_rows (rows_data : list (list pystr)) : list (list pystr) :=
  (foldl keep_unique ([], ∅) rows_data).1.

Definition clean_rows (rows : list (list pystr)) : list (list pystr) :=
  (fun row : list pystr => _clean_cell_text_for_pdf <$> row) <$> rows.

Definition max_cols_of (cleaned_rows : list (list pystr)) : nat :=
  foldl (fun max_cols cleaned_row => Nat.max max_cols (length cleaned_row)) 0 cleaned_rows.

(** [while len(row) < max_cols: row.append('')] *)
Definition pad_row (max_cols : nat) (row : list pystr) : list pystr :=
  row ++ replicate (max_cols - length row) [].

Definition MAX_COLS_PER_SEGMENT (max_cols : nat) : nat :=
  if (max_cols <=? 8)%nat then max_cols
  else if (max_cols <=? 12)%nat then 8
  else 6.

Definition cap_rows (cleaned_rows : list (list pystr)) : list (list pystr) :=
  if (MAX_ROWS <? length cleaned_rows)%nat then take MAX_ROWS cleaned_rows
  else cleaned_rows.

(** The grid the segments are cut from. *)
Definition prepared_rows (rows_data : list (list pystr)) : list (list pystr) :=
  let cleaned_rows := clean_rows (unique_rows rows_data) in
  cap_rows (pad_row (max_cols_of cleaned_rows) <$> cleaned_rows).

(** The column segments the loop over [col_segments] starts its
    turns from, left to right, each with the [segment_data] cut for
    it; [Some []] is a table that is skipped, [None] the
    [ValueError] of [range].  This is the arithmetic of the loop
    only: what a turn does with its segment, and where a call into
    the library ends the loop early, is [render_segment] below, and
    the tables that reach the story are among these segments
    (lemma [rendered_tables_are_segments]). *)
Definition table_segments (table_elem : Element) : option (list Segment) :=
  let rows_data := _parse_table_rows_clean table_elem in
  if negb (nonempty rows_data) then Some []
  else
    let unique := unique_rows rows_data in
    if negb (nonempty unique) then Some []
    else
      let max_cols := max_cols_of (clean_rows unique) in
      let cleaned_rows := prepared_rows rows_data in
      let per_segment := MAX_COLS_PER_SEGMENT max_cols in
      match py_range max_cols per_segment with
      | None => None
      | Some col_segments =>
          Some (List.filter (fun sg => nonempty (segment_data sg))
                  ((fun start_col =>
                      let end_col := Nat.min (start_col + per_segment) max_cols in
                      {| start_col := start_col;
                         end_col := end_col;
                         segment_data := slice start_col end_col <$> cleaned_rows |})
                     <$> col_segments))
      end.

(** [start_col] and [end_col] of every turn of the loop over
    [col_segments] *)
Definition column_bands (max_cols : nat) : list (nat * nat) :=
  let per_segment := MAX_COLS_PER_SEGMENT max_cols in
  (fun start_col => (start_col, Nat.min (start_col + per_segment) max_cols))
    <$> default [] (py_range max_cols per_segment).
End Tables.

(** [cell_text or ' '] *)
Definition or_space (cell_text : pystr) : pystr :=
  if nonempty cell_text then cell_text else py " ".

(** The title above a segment of a table that is cut in several. *)
Definition seg_title (table_idx max_cols n_segments seg_idx start_col end_col : nat)
  : pystr :=
  if (seg_idx =? 0)%nat
  then [34920; 26684; 32]%N ++ py_str (table_idx + 1)
       ++ [32; 40; 20849]%N ++ py_str max_cols
       ++ [21015; 65292; 20998]%N ++ py_str n_segments
       ++ [37096; 20998; 26174; 31034; 41]%N
  else [32493; 34920; 32; 40; 21015; 32]%N ++ py_str (start_col + 1)
       ++ [45]%N ++ py_str end_col ++ [41]%N.

(** The note below a table of which only [MAX_ROWS] rows are shown. *)
Definition truncate_note : pystr :=
  [27880; 65306; 34920; 26684; 20869; 23481; 36807; 22810; 65292;
   24050; 26174; 31034; 21069]%N ++ py_str MAX_ROWS ++ [34892]%N.

Section Rendering.
Context (RL : ReportLab) (L : PyLib).

Open Scope py_scope.

(** [table_flow]: a paragraph for every cell, those of the first
    row in the style of a header.  A text that [Paragraph] rejects
    ends the construction with its exception. *)
Definition table_flow_of (segment_data : list (list pystr)) : M Output (list (list Para)) :=
  comprehension_enumerate
    (fun row_idx row =>
       comprehension
         (fun cell_text =>
            Paragraph RL (or_space cell_text)
              (if (row_idx =? 0)%nat then StyleTableHeader else StyleTableCell))
         row)
    0 segment_data.

(** One turn of the loop over [col_segments]. *)
Definition render_segment (table_idx max_cols per_segment n_segments : nat)
    (cleaned_rows : list (list pystr)) (seg_idx start_col : nat) : M Output unit :=
  let end_col := Nat.min (start_col + per_segment) max_cols in
  let segment_data := slice start_col end_col <$> cleaned_rows in
  if negb (nonempty segment_data) then ret tt
  else
    table_flow <- table_flow_of segment_data ;;
    if negb (nonempty table_flow) then ret tt
    else
      (if (1 <? n_segments)%nat && (8 <? max_cols)%nat
       then
         title <- Paragraph RL
                    (seg_title table_idx max_cols n_segments seg_idx start_col end_col)
                    StyleSegmentTitle ;;
         story_append (FParagraph title)
       else ret tt) ;;;
      try_except
        (match table_flow with
         | first :: _ =>
             (* available_width / len(table_flow[0]) *)
             if negb (nonempty first) then raise (OtherException (py "ZeroDivisionError"))
             else if Table_accepts RL table_flow
             then story_append (FKeepInFrame table_flow) ;;; story_append (FSpacer 12)
             else raise (OtherException (py "Table"))
         | [] => raise (OtherException (py "IndexError"))
         end)
        (fun _ =>
           logger (py "table rendering failed, using text mode") ;;;
           for_each
             (fun row =>
                line <- Paragraph RL (py_join (py " | ") row) StyleNormal ;;
                story_append (FParagraph line))
             segment_data ;;;
           story_append (FSpacer 8)).

(** The body of the loop over [table_elements]. *)
Definition render_table (table_idx : nat) (table_elem : Element) : M Output unit :=
  let rows_data := _parse_table_rows_clean L table_elem in
  if negb (nonempty rows_data) then ret tt
  else
    let unique := unique_rows rows_data in
    if negb (nonempty unique) then ret tt
    else
      let cleaned := clean_rows L unique in
      let max_cols := max_cols_of cleaned in
      let per_segment := MAX_COLS_PER_SEGMENT max_cols in
      let truncated := (MAX_ROWS <? length cleaned)%nat in
      let cleaned_rows := prepared_rows L rows_data in
      match py_range max_cols per_segment with
      | None => raise (OtherException (py "ValueError"))
      | Some col_segments =>
          for_enumerate
            (render_segment table_idx max_cols per_segment (length col_segments)
               cleaned_rows)
            0 col_segments ;;;
          if truncated then
            story_append (FSpacer 3) ;;;
            (note <- Paragraph RL truncate_note StyleTruncateNote ;;
             story_append (FParagraph note)) ;;;
            story_append (FSpacer 8)
          else ret tt
      end.

Definition _tables_pdf_enhanced (root : Element) : M Output unit :=
  try_except
    (let table_elements := _findall_local root (py "Table") in
     if negb (nonempty table_elements) then ret tt
     else
       for_enumerate
         (fun table_idx (table_elem : ref) => render_table table_idx table_elem.2)
         0 table_elements)
    (fun _ => logger (py "enhanced table processing failed")).
End Rendering.
End App.

(** ** Classification of elements by the walk *)






(** A computation that raises from every state. *)
Definition always_raises {S A : Type} (c : M S A) : Prop :=
  forall s, exists e s', c s = (inl e, s').

(** ** The grids the table renderers build *)

(** [max(len(row) for row in rows_data)] *)
Definition max_len (rows_data : list (list pystr)) : nat :=
  foldr (fun row m => Nat.max (length row) m) 0 rows_data.

(** [doc.add_table(rows, cols)] of python-docx: a grid of empty cells. *)
Definition add_table (rows cols : nat) : list (list pystr) :=
  replicate rows (replicate cols []).

(** [wt.rows[i].cells[j].text = v] under the two bounds tests of the
    source. *)
Definition set_cell (i j : nat) (v : pystr) (wt : list (list pystr)) : list (list pystr) :=
  match wt !! i with
  | Some cells => if (j <? length cells)%nat then <[i := <[j := v]> cells]> wt else wt
  | None => wt
  end.

(** [for j, cell_text in enumerate(row_data)], from column [j] on *)
Fixpoint fill_cells (i j : nat) (row_data : list pystr) (wt : list (list pystr))
  : list (list pystr) :=
  match row_data with
  | [] => wt
  | cell_text :: rest =>
      fill_cells i (S j) rest
        (set_cell i j (if nonempty cell_text then cell_text else []) wt)
  end.

(** [for i, row_data in enumerate(rows_data)], from row [i] on *)
Fixpoint fill_rows (i : nat) (rows_data : list (list pystr)) (wt : list (list pystr))
  : list (list pystr) :=
  match rows_data with
  | [] => wt
  | row_data :: rest => fill_rows (S i) rest (fill_cells i 0 row_data wt)
  end.

(** The table [_process_table_for_word] adds for a grid that is not
    empty. *)
Definition word_table (rows_data : list (list pystr)) : list (list pystr) :=
  fill_rows 0 rows_data (add_table (length rows_data) (max_len rows_data)).

(** [normalized_rows] of [_process_table_for_pdf] *)
Definition normalized_rows (rows_data : list (list pystr)) : list (list pystr) :=
  (fun row => row ++ replicate (max_len rows_data - length row) []) <$> rows_data.

(** The text of one cell's paragraph in the PDF table. *)
Definition pdf_cell_text (cell_text : pystr) : pystr :=
  let cell_text :=
    if (150 <? length cell_text)%nat then take 147 cell_text ++ py "..." else cell_text in
  if nonempty cell_text then cell_text else py " ".

(** [_process_table_for_pdf] of the enhanced parser, on the story.  The
    paragraphs are built inside the [try]: a cell text that [Paragraph]
    rejects, like a failure of [Table], leaves the story as it was and
    writes a warning. *)
Module Pdf.
Section Table.
Context (RL : ReportLab) (L : PyLib).

Open Scope py_scope.

Definition _process_table_for_pdf (table_elem : Element) : M Output unit :=
  let rows_data := _extract_table_data_enhanced L table_elem in
  if negb (nonempty rows_data) then ret tt
  else
    let max_cols := max_len rows_data in
    try_except
      (table_flow <-
         comprehension
           (fun row =>
              comprehension
                (fun cell_text => Paragraph RL (pdf_cell_text cell_text) StyleTableCell)
                row)
           (normalized_rows rows_data) ;;
       if nonempty table_flow then
         (* available_width / max_cols *)
         if (max_cols =? 0)%nat then raise (OtherException (py "ZeroDivisionError"))
         else if Table_accepts RL table_flow
         then
           story_append (FSpacer 6) ;;;
           story_append (FTable table_flow) ;;;
           story_append (FSpacer 12) ;;;
           logger (py "PDF table added")
         else raise (OtherException (py "Table"))
       else ret tt)
      (fun _ => logger (py "PDF table rendering failed")).
End Table.
End Pdf.

(** ** What a renderer adds to the story *)

(** The table of the columns from [b.1] up to [b.2] of a grid, as the
    texts of its paragraphs: an empty cell is shown as a space. *)
Definition band_table (grid : list (list pystr)) (b : nat * nat) : list (list pystr) :=
  (fun row : list pystr => App.or_space <$> take (b.2 - b.1) (drop b.1 row)) <$> grid.

(** The grid [_tables_pdf_enhanced] prepares for a table element, the
    number of its columns, and the tables of its column bands, left to
    right. *)
Definition table_grid (L : PyLib) (table_elem : Element) : list (list pystr) :=
  App.prepared_rows L (App._parse_table_rows_clean L table_elem).

Definition table_columns (L : PyLib) (table_elem : Element) : nat :=
  App.max_cols_of
    (App.clean_rows L (App.unique_rows (App._parse_table_rows_clean L table_elem))).

Definition band_tables (L : PyLib) (table_elem : Element) : list (list (list pystr)) :=
  band_table (table_grid L table_elem) <$> App.column_bands (table_columns L table_elem).

(** [c] leaves the output as it is; a value it returns satisfies [P],
    and it does return one when [ok] holds. *)
Definition reads {A : Type} (c : M Output A) (P : A -> Prop) (ok : Prop) : Prop :=
  forall o, exists r,
    c o = (r, o) /\ (forall a, r = inr a -> P a) /\ (ok -> exists a, r = inr a).

(** However [c] ends, the tables it has added to the story are some of
    the tables [E], in the order of [E]. *)
Definition adds {A : Type} (E : list (list (list pystr))) (c : M Output A) : Prop :=
  forall o, exists T,
    T `sublist_of` E /\ tables_of (story (c o).2) = tables_of (story o) ++ T.

(** [c] returns, and the tables it has added to the story are the
    tables [E]. *)
Definition adds_all {A : Type} (E : list (list (list pystr))) (c : M Output A) : Prop :=
  forall o, exists a o',
    c o = (inr a, o') /\ tables_of (story o') = tables_of (story o) ++ E.

(** ** Temporary files *)

(** [cleanup_temp_files] on the files and [self.temp_files].  [locked]
    tells for which paths [os.remove] raises; such a failure is logged and
    the loop goes on. *)
Definition remove_temp (locked : pystr -> bool) (fs : gmap pystr pybytes)
    (temp_file : pystr) : gmap pystr pybytes :=
  match fs !! temp_file with
  | Some _ => if locked temp_file then fs else delete temp_file fs
  | None => fs
  end.

Definition cleanup_temp_files (locked : pystr -> bool)
    (st : gmap pystr pybytes * list pystr) : gmap pystr pybytes * list pystr :=
  (foldl (remove_temp locked) st.1 st.2, []).

(** [row_data and any(cell.strip() for cell in row_data)] *)
Definition has_content (row_data : list pystr) : bool :=
  nonempty row_data && existsb (fun cell => nonempty (py_strip cell)) row_data.

(** White space in normal form: no white space but the plain space, no
    two spaces in a row, none at either end. *)
Definition single_spaced (s : pystr) : Prop :=
  (forall c, c ∈ s -> isspace c = true -> c = 32%N)
  /\ (forall i, s !! i = Some 32%N -> s !! S i <> Some 32%N)
  /\ (forall c, head s = Some c -> isspace c = false)
  /\ (forall c, last s = Some c -> isspace c = false).

(** ** Text units *)

(** The loop of [_get_text_indent_level] over the parents of the
    element, nearest first; without [getparent] it ends at once. *)
Fixpoint indent_chain (L : PyLib) (has_getparent : bool) (ancestors : list Element) : Z :=
  match ancestors with
  | [] => 0
  | parent :: up =>
      if has_getparent then
        if tag_is_target (tag parent) [py "List"]
        then default 0%Z (py_int L (default (py "0") (get parent (py "indent"))))
        else indent_chain L has_getparent up
      else 0
  end.

Definition _get_text_indent_level (L : PyLib) (has_getparent : bool) (text_elem : Node) : Z :=
  indent_chain L has_getparent (n_ancestors text_elem).

(** The paragraph [_process_text_for_word] and [_process_text_for_pdf]
    add for a text element: its cleaned text and its indent level, or
    nothing. *)
Definition text_paragraph (L : PyLib) (has_getparent : bool) (text_elem : Node)
  : option (pystr * Z) :=
  match text (n_elem text_elem) with
  | Some (c :: v) =>
      let text := _clean_text_content L (c :: v) in
      if nonempty (py_strip text)
      then Some (text, _get_text_indent_level L has_getparent text_elem)
      else None
  | _ => None
  end.

(** ** Names of the output files *)

(** ['未命名'] *)
Definition unnamed : pystr := [26410; 21629; 21517]%N.

(** The [safe] of [_EnhancedConvertWorker.run]; [isalnum] is
    [str.isalnum] on one character. *)
Definition safe (isalnum : N -> bool) (s : pystr) : pystr :=
  let s := if nonempty s then s else unnamed in
  let kept := List.filter (fun c => isalnum c || char_in c (py " -_.")) s in
  let cut := take 100 (py_strip kept) in
  if nonempty cut then cut else unnamed.

(** ** Concrete pages, tables and payloads used by the examples *)
Module Samples.

Definition elem (t : string) (cs : list Element) : Element :=
  mkElement (TagStr (py t)) ∅ None None cs.

Definition elem_text (t : string) (tx : string) : Element :=
  mkElement (TagStr (py t)) ∅ (Some (py tx)) None [].

(** A [Row] that holds a cell and, nested below it, another [Row]. *)
Definition nested_row : Element :=
  elem "Row" [elem "{ns}Cell" []; elem "Row" []].

(** The head of a WAVE file: a RIFF container that is not WebP. *)
Definition wav_header : pybytes :=
  bytes_of "RIFF" ++ [x24; x00; x00; x00] ++ bytes_of "WAVEfmt ".

(** An AVI file of 116 bytes: a RIFF container that is not WebP
    either, long enough for the image extraction to keep it. *)
Definition avi_file : pybytes :=
  bytes_of "RIFF" ++ [x6c; x00; x00; x00] ++ bytes_of "AVI LIST" ++ replicate 100 x00.

Definition jpeg_header : pybytes := [xff; xd8; xff; xe0; x00; x10].

Definition cell_of (tx : string) : Element :=
  elem "{one}Cell" [elem "{one}OEChildren" [elem "{one}OE" [elem_text "{one}T" tx]]].

(** The table with the rows [["A","B"],["A","B"],["C","D"]]. *)
Definition table_ab : Element :=
  elem "{one}Table"
    [ elem "{one}Row" [cell_of "A"; cell_of "B"];
      elem "{one}Row" [cell_of "A"; cell_of "B"];
      elem "{one}Row" [cell_of "C"; cell_of "D"] ].

(** A cell spanning three columns, and a row that holds it. *)
Definition wide_cell : Element :=
  mkElement (TagStr (py "{one}Cell")) {[ py "colspan" := py "3" ]} None None
    [elem_text "{one}T" "total"].

Definition wide_row : Element :=
  elem "{one}Row" [cell_of "x"; wide_cell; cell_of "y"].

(** An image whose only payload decodes to the three bytes of the JPEG
    signature. *)
Definition tiny_image : Element :=
  mkElement (TagStr (py "{one}Image")) {[ py "data" := py "/9j/" ]} None None [].

(** 140 letters, then a character that is not in the base64 alphabet. *)
Definition marked_payload : pystr := replicate 140 65%N ++ py "!".

Definition marked_image : Element :=
  elem "{one}Image"
    [mkElement (TagStr (py "{one}Blob")) ∅ (Some marked_payload) None []].

(** A page with one outline: a paragraph, then a table of one cell. *)
Definition cell_T : Element := elem_text "{one}T" "in the cell".

Definition cell_table : Element :=
  elem "{one}Table"
    [elem "{one}Row"
       [elem "{one}Cell" [elem "{one}OEChildren" [elem "{one}OE" [cell_T]]]]].

Definition page_with_table : Element :=
  elem "{one}Page"
    [elem "{one}Outline"
       [elem "{one}OEChildren"
          [ elem "{one}OE" [elem_text "{one}T" "before the table"];
            elem "{one}OE" [cell_table] ]]].

(** Renderers that build nothing but do write the output file. *)
Definition write_file (out_path : pystr) : M (World unit) unit :=
  fun w => (inr tt, mkWorld (<[out_path := bytes_of "document"]> (fs w)) (stderr w) (heap w)).

Definition renderers : Renderers unit := {|
  docx_Document := ret tt;
  docx_add_heading := fun _ => ret tt;
  docx_save := write_file;
  _process_table_for_word := fun _ => ret tt;
  _process_image_for_word := fun _ => ret tt;
  _process_text_for_word := fun _ => ret tt;
  pdf_styles := ret tt;
  pdf_SimpleDocTemplate := fun _ => ret tt;
  pdf_story_title := fun _ => ret tt;
  pdf_build := write_file (py "page.pdf");
  _process_table_for_pdf := fun _ => ret tt;
  _process_image_for_pdf := fun _ => ret tt;
  _process_text_for_pdf := fun _ => ret tt
|}.

Definition empty_world : World unit := mkWorld ∅ [] tt.

(** A page whose root element is never closed. *)
Definition broken_xml : pystr := py "<Page><Outline>".

(** A table of two rows and fifteen columns. *)
Definition fifteen : list string :=
  ["a"; "b"; "c"; "d"; "e"; "f"; "g"; "h"; "i"; "j"; "k"; "l"; "m"; "n"; "o"]%string.

Definition table_15 : Element :=
  elem "{one}Table"
    [ elem "{one}Row" (cell_of <$> fifteen);
      elem "{one}Row" [cell_of "1"; cell_of "2"] ].

End Samples.

(** ** Further concrete inputs *)
Module Cases.

(** The text of the page of [Samples], and a library whose parser is
  tabulated on it. *)
Definition page_xml : pystr :=
py ("<one:Page xmlns:one='one'><one:Outline><one:OEChildren>"
    ++ "<one:OE><one:T>before the table</one:T></one:OE>"
    ++ "<one:OE><one:Table><one:Row><one:Cell><one:OEChildren>"
    ++ "<one:OE><one:T>in the cell</one:T></one:OE>"
    ++ "</one:OEChildren></one:Cell></one:Row></one:Table></one:OE>"
    ++ "</one:OEChildren></one:Outline></one:Page>")%string.

Definition lib : PyLib := {|
unescape_charrefs := fun s => s;
py_int := Reference.int_decimal;
b64decode := Reference.base64_b64decode;
str_lower := fmap ascii_lower_char;
fromstring := fun xml =>
  if bool_decide (xml = page_xml) then Some Samples.page_with_table else None
|}.

(** Unit renderers that all fail; the document calls succeed. *)
Definition failing (n : Node) : M (World unit) unit := raise (OtherException (py "unit")).

Definition renderers : Renderers unit := {|
docx_Document := ret tt;
docx_add_heading := fun _ => ret tt;
docx_save := Samples.write_file;
_process_table_for_word := failing;
_process_image_for_word := failing;
_process_text_for_word := failing;
pdf_styles := ret tt;
pdf_SimpleDocTemplate := fun _ => ret tt;
pdf_story_title := fun _ => ret tt;
pdf_build := Samples.write_file (py "page.pdf");
_process_table_for_pdf := failing;
_process_image_for_pdf := failing;
_process_text_for_pdf := failing
|}.

(** A cell whose column span is written as a negative number, and one
  whose span is not a number. *)
Definition negative_span_cell : Element :=
mkElement (TagStr (py "{one}Cell")) {[ py "colspan" := py "-2" ]} None None
  [Samples.elem_text "{one}T" "n"].

Definition worded_span_cell : Element :=
mkElement (TagStr (py "{one}Cell")) {[ py "colspan" := py "two"; py "COLSPAN" := py "2" ]}
  None None [Samples.elem_text "{one}T" "w"].

(** An image that carries a payload in its [data] attribute and another
  one in a child. *)
Definition attr_payload : pystr := replicate 140 65%N.

Definition attr_image : Element :=
mkElement (TagStr (py "{one}Image")) {[ py "data" := attr_payload ]} None None
  [mkElement (TagStr (py "{one}Data")) ∅ (Some (replicate 144 66%N)) None []].

(** Renderers whose last step, writing the file, always fails. *)
Definition disk_full : M (World unit) unit := raise (OtherException (py "disk full")).

Definition unwritable : Renderers unit := {|
docx_Document := ret tt;
docx_add_heading := fun _ => ret tt;
docx_save := fun _ => disk_full;
_process_table_for_word := fun _ => ret tt;
_process_image_for_word := fun _ => ret tt;
_process_text_for_word := fun _ => ret tt;
pdf_styles := ret tt;
pdf_SimpleDocTemplate := fun _ => ret tt;
pdf_story_title := fun _ => ret tt;
pdf_build := disk_full;
_process_table_for_pdf := fun _ => ret tt;
_process_image_for_pdf := fun _ => ret tt;
_process_text_for_pdf := fun _ => ret tt
|}.

(** [str.isalnum] on ASCII and on the CJK unified ideographs. *)
Definition isalnum (c : N) : bool :=
((48 <=? c) && (c <=? 57) || (65 <=? c) && (c <=? 90) || (97 <=? c) && (c <=? 122)
 || (19968 <=? c) && (c <=? 40959))%N.

(** The [T] of the table cell of the sample page, as the walk hands it
  over. *)
Definition cell_T_node : Node := {|
n_path := [0; 0; 1; 0; 0; 0; 0; 0; 0]%nat;
n_elem := Samples.cell_T;
n_ancestors := [Samples.elem "{one}List" []; Samples.cell_table]
|}.


(** A library for the PDF examples.  It reads the plain texts, and only
  them, as paragraphs, and builds a table from every rectangular grid.
  reportlab reads every plain text and rejects the text ['a<b'], whose
  tag is never closed; the examples hold no other text with a ['<'] or
  an ['&']. *)
Definition reportlab : ReportLab := {|
Paragraph_accepts := fun _ text => plain text;
Table_accepts := rectangular
|}.

Definition empty_output : Output := mkOutput [] [].




(** A table with the text ['a<b'] in a cell, for the enhanced parser. *)
Definition table_marked : Element :=
Samples.elem "{one}Table"
  [ Samples.elem "{one}Row" [Samples.cell_of "x"; Samples.cell_of "a<b"] ].

End Cases.

(** * Properties *)

(** ** Strings *)

Section ListFacts.
Context {A : Type} `{EqDecision A}.

Lemma startswith_spec (s pre : list A) :
  startswith s pre = true <-> exists k, s = pre ++ k.
Proof.
  revert s. induction pre as [|p pre IH]; intros s; simpl.
  - split; [intros _; by exists s | done].
  - destruct s as [|c s].
    + split; [done | intros [k Hk]; discriminate].
    + rewrite andb_true_iff, bool_decide_eq_true, IH. split.
      * intros [-> [k ->]]. eauto.
      * intros [k Hk]. injection Hk as -> ->. eauto.
Qed.

Lemma endswith_spec (s suf : list A) :
  endswith s suf = true <-> exists k, s = k ++ suf.
Proof.
  unfold endswith. rewrite startswith_spec. split.
  - intros [k Hk]. exists (reverse k).
    apply (inj reverse). rewrite reverse_app, reverse_involutive. exact Hk.
  - intros [k ->]. exists (reverse k). apply reverse_app.
Qed.

Lemma py_split_nonempty (c : A) (s : list A) : py_split c s <> [].
Proof.
  induction s as [|x s IH]; simpl; [done|].
  case_bool_decide; [done|]. destruct (py_split c s); done.
Qed.

Lemma py_split_no_sep (c : A) (s : list A) : c ∉ s -> py_split c s = [s].
Proof.
  induction s as [|x s IH]; simpl; [done|].
  intros Hc. apply not_elem_of_cons in Hc as [Hx Hs].
  case_bool_decide; [congruence|]. by rewrite IH.
Qed.

Lemma py_split_app (c : A) (a b : list A) :
  py_split c (a ++ c :: b) = py_split c a ++ py_split c b.
Proof.
  induction a as [|x a IH]; simpl.
  - by rewrite bool_decide_eq_true_2.
  - case_bool_decide; [by rewrite IH|].
    rewrite IH. pose proof (py_split_nonempty c a).
    destruct (py_split c a); done.
Qed.

Lemma py_last_split_app (c : A) (a b : list A) :
  py_last (py_split c (a ++ c :: b)) = py_last (py_split c b).
Proof.
  unfold py_last. rewrite py_split_app, last_app.
  pose proof (py_split_nonempty c b) as Hne.
  apply last_is_Some in Hne as [y ->]. done.
Qed.

Lemma py_last_split_no_sep (c : A) (s : list A) :
  c ∉ s -> py_last (py_split c s) = s.
Proof. intros Hc. by rewrite py_split_no_sep. Qed.
End ListFacts.

(** With a requested name free of ['}'], the three tests of
    [_findall_local] all say the same: the part of the tag after its last
    ['}'] is the name. *)
Lemma tag_matches_local (t n : pystr) :
  125%N ∉ n ->
  tag_matches (TagStr t) n = bool_decide (local_part t = n).
Proof.
  intros Hn. unfold tag_matches.
  destruct (bool_decide (local_part t = n)) eqn:E; [apply orb_true_r|].
  apply bool_decide_eq_false in E.
  rewrite orb_false_r. apply orb_false_iff. split.
  - apply not_true_iff_false. intros [k ->]%endswith_spec.
    apply E. unfold local_part. simpl.
    by rewrite py_last_split_app, py_last_split_no_sep.
  - apply bool_decide_eq_false. intros ->. apply E.
    by apply py_last_split_no_sep.
Qed.

(** ** Trees *)

Lemma Element_ind' (P : Element -> Prop) :
  (forall t a tx tl cs, Forall P cs -> P (mkElement t a tx tl cs)) ->
  forall e, P e.
Proof.
  intros IH. fix self 1. intros [t a tx tl cs]. apply IH.
  induction cs as [|c cs IHcs]; constructor; [apply self | exact IHcs].
Qed.

Lemma iter_at_unfold (p : path) (e : Element) :
  iter_at p e = (p, e) :: iter_kids p 0 (children e).
Proof. by destruct e. Qed.

Lemma iter_at_below (e : Element) :
  forall p r, r ∈ iter_at p e -> exists q, r.1 = p ++ q.
Proof.
  induction e as [t a tx tl cs IH] using Element_ind'. intros p r.
  rewrite iter_at_unfold. simpl. intros [->|Hr]%elem_of_cons.
  - exists []. by rewrite app_nil_r.
  - revert Hr. generalize 0%nat.
    induction IH as [|c cs Hc _ IHcs]; intros i; simpl; [by intros ?%elem_of_nil|].
    intros [Hr|Hr]%elem_of_app.
    + destruct (Hc _ _ Hr) as [q ->]. exists (i :: q). by rewrite <- app_assoc.
    + eauto.
Qed.

Lemma iter_kids_below (p : path) (cs : list Element) :
  forall i r, r ∈ iter_kids p i cs -> exists j q, r.1 = p ++ j :: q.
Proof.
  induction cs as [|c cs IH]; intros i r; simpl; [by intros ?%elem_of_nil|].
  intros [Hr|Hr]%elem_of_app.
  - destruct (iter_at_below _ _ _ Hr) as [q ->]. exists i, q. by rewrite <- app_assoc.
  - eauto.
Qed.

Lemma iter_head (e : Element) : iter e = ([], e) :: proper_descendants e.
Proof. unfold proper_descendants, iter. by rewrite iter_at_unfold. Qed.

Lemma proper_descendants_below (e : Element) (r : ref) :
  r ∈ proper_descendants e -> r.1 <> [].
Proof.
  unfold proper_descendants, iter. rewrite iter_at_unfold. simpl.
  intros (j & q & ->)%iter_kids_below. done.
Qed.

(** ** [_findall_local] *)

Lemma keep_ref_root (n : pystr) (e : Element) :
  125%N ∉ n -> keep_ref n ([], e) = false.
Proof.
  intros Hn. unfold keep_ref. cbn [fst snd]. destruct (tag e) as [t|]; [|done].
  rewrite tag_matches_local by done.
  rewrite (bool_decide_eq_true_2 (@nil nat = [])) by done.
  destruct (bool_decide (local_part t = n)); done.
Qed.

Lemma keep_ref_below (n : pystr) (r : ref) :
  125%N ∉ n -> r.1 <> [] -> keep_ref n r = has_local_name n r.
Proof.
  intros Hn Hr. unfold keep_ref, has_local_name. destruct (tag r.2) as [t|]; [|done].
  rewrite tag_matches_local by done.
  rewrite (bool_decide_eq_false_2 (r.1 = [])) by done.
  apply andb_true_r.
Qed.

Lemma filter_ext_elem {A : Type} (f g : A -> bool) (l : list A) :
  (forall x, x ∈ l -> f x = g x) -> List.filter f l = List.filter g l.
Proof.
  induction l as [|x l IH]; intros Hfg; simpl; [done|].
  rewrite (Hfg x) by apply list_elem_of_here.
  rewrite IH; [done|]. intros y Hy. apply Hfg. by apply list_elem_of_further.
Qed.

(** C10.  For every element [p] and every requested name [n],
    [_findall_local p n] is the list of the proper descendants of [p]
    whose local tag name is [n], in document order; [p] itself is never
    in it, whatever its own tag.  A name is a local name: it holds no
    ['}'], like every name the parsers ask for ([Table], [Row], [Cell],
    [T], ...). *)
Theorem findall_local_proper_descendants (p : Element) (n : pystr) :
  125%N ∉ n ->
  _findall_local p n = List.filter (has_local_name n) (proper_descendants p)
  /\ (forall r, r ∈ _findall_local p n -> r.1 <> [] /\ has_local_name n r = true).
Proof.
  intros Hn.
  assert (_findall_local p n = List.filter (has_local_name n) (proper_descendants p)) as Heq.
  { unfold _findall_local. rewrite iter_head. simpl.
    rewrite keep_ref_root by done.
    apply filter_ext_elem. intros r Hr.
    apply keep_ref_below; [done|]. by apply (proper_descendants_below p). }
  split; [exact Heq|].
  intros r. rewrite Heq, list_elem_of_In, filter_In, <- list_elem_of_In.
  intros [Hr Hl]. split; [by apply (proper_descendants_below p) | done].
Qed.

Lemma findall_local_proper_descendants_witness :
(125%N ∉ py "Row")
  /\ _findall_local Samples.nested_row (py "Row")
     = List.filter (has_local_name (py "Row")) (proper_descendants Samples.nested_row)
  /\ (forall r, r ∈ _findall_local Samples.nested_row (py "Row") ->
                r.1 <> [] /\ has_local_name (py "Row") r = true).
Proof.
  assert (Hn : 125%N ∉ py "Row") by compute_done.
  exact (conj Hn (findall_local_proper_descendants Samples.nested_row (py "Row") Hn)).
Defined.

(** ** Image format detection *)

(** C6 fails on the code for the default.  Every byte string that
    begins with 0xFF 0xD8 0xFF is detected as ['.jpg'].  A byte string
    that matches none of the known signatures is detected as ['.png']
    unless it begins with ['RIFF']: then it is detected as ['.webp'],
    although without the ['WEBP'] marker it matches no known signature.
    An AVI file is such a byte string. *)
Theorem detect_image_format_unmatched_riff :
  (forall rest, _detect_image_format ([xff; xd8; xff] ++ rest) = py ".jpg")
  /\ (forall data,
        spec_known_signature data = false ->
        _detect_image_format data
        = if startswith data (bytes_of "RIFF") then py ".webp" else py ".png")
  /\ spec_known_signature Samples.avi_file = false
  /\ _detect_image_format Samples.avi_file = py ".webp".
Proof.
  split; [done|]. split; [|by split].
  intros data. unfold spec_known_signature, _detect_image_format,
    supported_image_extensions.
  cbn [existsb first_signature].
  repeat match goal with
         | |- context [startswith data ?sig] =>
             lazymatch sig with
             | bytes_of "RIFF" => fail
             | _ => destruct (startswith data sig); [by cbn|]
             end
         end.
  cbn [orb]. by destruct (startswith data (bytes_of "RIFF")).
Qed.

Lemma detect_image_format_unmatched_riff_witness :
  _detect_image_format Samples.jpeg_header = py ".jpg"
  /\ spec_known_signature (bytes_of "plain text") = false
  /\ _detect_image_format (bytes_of "plain text") = py ".png".
Proof.
  assert (Hno : spec_known_signature (bytes_of "plain text") = false) by reflexivity.
  exact (conj (proj1 detect_image_format_unmatched_riff [xe0; x00; x10])
           (conj Hno (proj1 (proj2 detect_image_format_unmatched_riff) _ Hno))).
Defined.

(** C7 fails on the code.  A byte string that begins with ['RIFF'] is
    detected as ['.webp'] whatever follows: the table of signatures holds
    ['RIFF'] itself, so the later test for the ['WEBP'] marker is never
    reached.  The head of a WAVE file, which has no such marker in its
    first 12 bytes, is detected as ['.webp']. *)
Theorem detect_image_format_riff_without_marker :
  (forall rest, _detect_image_format (bytes_of "RIFF" ++ rest) = py ".webp")
  /\ contains (bytes_of "WEBP") (take 12 Samples.wav_header) = false
  /\ _detect_image_format Samples.wav_header = py ".webp".
Proof. repeat split; done. Qed.

(** ** Table extraction *)

Lemma row_signature_take (row_data : list pystr) :
  row_signature row_data = py_join (py "|") (take 3 row_data).
Proof.
  unfold row_signature. destruct (3 <=? length row_data)%nat eqn:E; [done|].
  apply Nat.leb_gt in E. rewrite take_ge by lia. done.
Qed.

Lemma add_row_keeps_distinct (st : list (list pystr) * gset pystr) (row_data : list pystr) :
  NoDup (row_signature <$> st.1) ->
  (forall s, s ∈ st.2 <-> s ∈ row_signature <$> st.1) ->
  NoDup (row_signature <$> (add_row st row_data).1)
  /\ (forall s, s ∈ (add_row st row_data).2 <-> s ∈ row_signature <$> (add_row st row_data).1).
Proof.
  intros Hnd Hseen. unfold add_row.
  destruct (nonempty row_data && existsb _ row_data); simpl; [|done].
  case_bool_decide as Hin; simpl; [done|].
  rewrite fmap_app. simpl. split.
  - apply NoDup_app. split; [done|]. split.
    + intros s Hs [->|[]%elem_of_nil]%elem_of_cons. by apply Hin, Hseen.
    + apply NoDup_singleton.
  - intros s. rewrite elem_of_union, elem_of_singleton, elem_of_app, list_elem_of_singleton, Hseen.
    tauto.
Qed.

Lemma foldl_add_row_distinct (rows : list (list pystr)) :
  forall st : list (list pystr) * gset pystr,
    NoDup (row_signature <$> st.1) ->
    (forall s, s ∈ st.2 <-> s ∈ row_signature <$> st.1) ->
    NoDup (row_signature <$> (foldl add_row st rows).1).
Proof.
  induction rows as [|row rows IH]; intros st Hnd Hseen; simpl; [done|].
  destruct (add_row_keeps_distinct st row Hnd Hseen) as [Hnd' Hseen'].
  by apply IH.
Qed.

(** C1.  The grid extracted from any table holds no two rows with the
    same signature, the ['|']-join of a row's first three cells at most;
    the table with the rows A B, A B, C D extracts to A B, C D. *)
Theorem extract_table_distinct_signatures (L : PyLib) :
  (forall table_elem,
      NoDup ((fun row => py_join (py "|") (take 3 row))
               <$> _extract_table_data_enhanced L table_elem))
  /\ _extract_table_data_enhanced L Samples.table_ab
     = [[py "A"; py "B"]; [py "C"; py "D"]].
Proof.
  split; [|by vm_compute].
  intros table_elem.
  rewrite <- (list_fmap_ext row_signature) by (intros; apply row_signature_take).
  unfold _extract_table_data_enhanced.
  apply foldl_add_row_distinct; simpl.
  - apply NoDup_nil_2.
  - intros s. rewrite elem_of_empty, elem_of_nil. done.
Qed.

Lemma first_span_head (L : PyLib) (cell_elem : Element) (attrs : list pystr) :
  first_span L cell_elem attrs =
  match head (omap (fun attr => match get cell_elem attr with
                                | Some (c :: v) => Some (c :: v)
                                | _ => None
                                end) attrs) with
  | Some v => default 1%Z (py_int L v)
  | None => 1%Z
  end.
Proof.
  induction attrs as [|attr attrs IH]; simpl; [done|].
  destruct (get cell_elem attr) as [[|c v]|]; simpl; try exact IH.
  by destruct (py_int L (c :: v)).
Qed.

(** C4.  When the column-span attribute of a cell parses as an integer
    [k >= 1], the cell contributes its text followed at once by exactly
    [k - 1] blank cells, at its place in the extracted row. *)
Theorem colspan_adds_blank_cells (L : PyLib) (cell_elem : Element) (v : pystr) (k : Z) :
  colspan_attribute cell_elem = Some v ->
  py_int L v = Some k ->
  (1 <= k)%Z ->
  let blanks : list pystr := replicate (Z.to_nat (k - 1)) [] in
  Z.of_nat (length blanks) = (k - 1)%Z
  /\ cell_entries L cell_elem = _extract_cell_text_enhanced L cell_elem :: blanks
  /\ (forall row_elem before p after,
        _findall_local row_elem (py "Cell") = before ++ (p, cell_elem) :: after ->
        row_data_of L row_elem
        = flat_map (fun c : ref => cell_entries L c.2) before
          ++ (_extract_cell_text_enhanced L cell_elem :: blanks)
          ++ flat_map (fun c : ref => cell_entries L c.2) after).
Proof.
  intros Hattr Hint Hk blanks.
  assert (cell_entries L cell_elem = _extract_cell_text_enhanced L cell_elem :: blanks) as Hcell.
  { unfold cell_entries, _get_cell_span. rewrite first_span_head.
    change (head _) with (colspan_attribute cell_elem).
    rewrite Hattr, Hint. done. }
  split; [|split; [exact Hcell|]].
  - unfold blanks. rewrite length_replicate. lia.
  - intros row_elem before p after Hcells. unfold row_data_of.
    rewrite Hcells, flat_map_app. cbn [flat_map snd]. by rewrite Hcell.
Qed.

Lemma colspan_adds_blank_cells_witness :
  colspan_attribute Samples.wide_cell = Some (py "3")
  /\ py_int Reference.lib (py "3") = Some 3%Z
  /\ (1 <= 3)%Z
  /\ cell_entries Reference.lib Samples.wide_cell
     = _extract_cell_text_enhanced Reference.lib Samples.wide_cell
       :: replicate (Z.to_nat (3 - 1)) [].
Proof.
  assert (Ha : colspan_attribute Samples.wide_cell = Some (py "3")) by reflexivity.
  assert (Hi : py_int Reference.lib (py "3") = Some 3%Z) by reflexivity.
  assert (Hk : (1 <= 3)%Z) by lia.
  exact (conj Ha (conj Hi (conj Hk
           (proj1 (proj2 (colspan_adds_blank_cells Reference.lib Samples.wide_cell
                            (py "3") 3 Ha Hi Hk)))))).
Defined.

Example wide_row_extracted :
  row_data_of Reference.lib Samples.wide_row = [py "x"; py "total"; []; []; py "y"].
Proof. reflexivity. Qed.

(** ** Image extraction *)

Section ImageFacts.
Context (L : PyLib).

Lemma try_decode_some (s : pystr) (found : pybytes * pystr) :
  try_decode L s = Some found ->
  b64decode L s = Some found.1
  /\ (100 < length found.1)%nat
  /\ found.2 = _detect_image_format found.1.
Proof.
  unfold try_decode. destruct (b64decode L s) as [data|]; [|done].
  destruct (100 <? length data)%nat eqn:E; [|done].
  intros [= <-]. apply Nat.ltb_lt in E. done.
Qed.

Lemma try_decode_short (s : pystr) :
  (forall data, b64decode L s = Some data -> (length data < 100)%nat) ->
  try_decode L s = None.
Proof.
  intros Hshort. destruct (try_decode L s) as [found|] eqn:E; [|done].
  apply try_decode_some in E as (Hd & Hlen & _).
  specialize (Hshort _ Hd). lia.
Qed.

Lemma from_attributes_none (img_elem : Element) (attrs : list pystr) :
  (forall s, s ∈ omap (fun attr => match get img_elem attr with
                                   | Some (c :: v) => Some (c :: v)
                                   | _ => None
                                   end) attrs ->
             try_decode L s = None) ->
  from_attributes L img_elem attrs = None.
Proof.
  induction attrs as [|attr attrs IH]; simpl; [done|].
  destruct (get img_elem attr) as [[|c v]|]; simpl; intros Hall; try by apply IH.
  rewrite (Hall (c :: v)) by apply list_elem_of_here.
  apply IH. intros s Hs. apply Hall. by apply list_elem_of_further.
Qed.

Lemma from_children_none (cs : list Element) :
  (forall s, s ∈ omap (fun child => match text child with
                                    | Some (c :: v) =>
                                        if tag_has_keyword L (tag child)
                                        then Some (c :: v) else None
                                    | _ => None
                                    end) cs ->
             try_decode L s = None) ->
  from_children L cs = None.
Proof.
  induction cs as [|child cs IH]; simpl; [done|].
  destruct (text child) as [[|c v]|]; simpl; intros Hall; try by apply IH.
  destruct (tag_has_keyword L (tag child)); simpl in Hall; [|by apply IH].
  rewrite (Hall (c :: v)) by apply list_elem_of_here.
  apply IH. intros s Hs. apply Hall. by apply list_elem_of_further.
Qed.

Lemma from_descendants_none (ds : list ref) :
  (forall d, d ∈ ds -> d.1 <> []) ->
  (forall s, s ∈ omap (fun d : ref => match text d.2 with
                                      | Some (c :: v) =>
                                          if scan_guard (py_strip (c :: v))
                                          then Some (py_strip (c :: v)) else None
                                      | _ => None
                                      end) ds ->
             try_decode L s = None) ->
  (from_descendants L ds).2 = None.
Proof.
  induction ds as [|d ds IH]; simpl; [done|]. intros Hbelow Hall.
  assert (forall d', d' ∈ ds -> d'.1 <> []) as Hbelow'
    by (intros; apply Hbelow; by apply list_elem_of_further).
  destruct (text d.2) as [[|c v]|]; simpl in *; try by apply IH.
  rewrite (bool_decide_eq_false_2 (d.1 = [])) by (apply Hbelow, list_elem_of_here).
  simpl. destruct (scan_guard (py_strip (c :: v))); simpl in Hall; [|by apply IH].
  rewrite (Hall (py_strip (c :: v))) by apply list_elem_of_here.
  simpl. apply IH; [done|]. intros s Hs. apply Hall. by apply list_elem_of_further.
Qed.

Lemma from_descendants_skips_root (e : Element) :
  from_descendants L (iter e) = from_descendants L (proper_descendants e).
Proof.
  rewrite iter_head. simpl. by destruct (text e) as [[|c v]|].
Qed.



End ImageFacts.

(** C5.  When each candidate payload of an image element decodes to
    fewer than 100 bytes, or does not decode, extraction returns [None],
    whatever the decoded bytes begin with. *)
Theorem extract_image_rejects_short_payloads (L : PyLib) (img_elem : Element) :
  (forall s data, s ∈ candidate_payloads L img_elem ->
                  b64decode L s = Some data -> (length data < 100)%nat) ->
  _extract_image_data_enhanced L img_elem = None.
Proof.
  intros Hshort.
  assert (forall s, s ∈ candidate_payloads L img_elem -> try_decode L s = None) as Hnone.
  { intros s Hs. apply try_decode_short. intros data. by apply Hshort. }
  unfold candidate_payloads in Hnone. unfold _extract_image_data_enhanced.
  rewrite from_attributes_none; [rewrite from_children_none|].
  - rewrite from_descendants_skips_root. apply from_descendants_none.
    + intros d. apply proper_descendants_below.
    + intros s Hs. apply Hnone. rewrite !elem_of_app. auto.
  - intros s Hs. apply Hnone. rewrite !elem_of_app. auto.
  - intros s Hs. apply Hnone. rewrite !elem_of_app. auto.
Qed.

Lemma extract_image_rejects_short_payloads_witness :
  (forall s data, s ∈ candidate_payloads Reference.lib Samples.tiny_image ->
                  b64decode Reference.lib s = Some data -> (length data < 100)%nat)
  /\ b64decode Reference.lib (py "/9j/") = Some [xff; xd8; xff]
  /\ _detect_image_format [xff; xd8; xff] = py ".jpg"
  /\ _extract_image_data_enhanced Reference.lib Samples.tiny_image = None.
Proof.
  assert (Hshort : forall s data,
             s ∈ candidate_payloads Reference.lib Samples.tiny_image ->
             b64decode Reference.lib s = Some data -> (length data < 100)%nat).
  { intros s data Hs. vm_compute in Hs. apply list_elem_of_singleton in Hs as ->.
    intros Hd. vm_compute in Hd. injection Hd as <-. simpl. lia. }
  exact (conj Hshort (conj eq_refl (conj eq_refl
           (extract_image_rejects_short_payloads Reference.lib Samples.tiny_image Hshort)))).
Defined.




(** ** The walk *)

Section Preservation.
Context {S : Type} (I : S -> Prop).

Lemma preserves_ret {A : Type} (a : A) : preserves I (ret a).
Proof. by intros s. Qed.

Lemma preserves_bind {A B : Type} (c : M S A) (k : A -> M S B) :
  preserves I c -> (forall a, preserves I (k a)) -> preserves I (bind c k).
Proof.
  intros Hc Hk s Hs. unfold bind. specialize (Hc s Hs).
  destruct (c s) as [[e|a] s']; [done|]. by apply Hk.
Qed.

Lemma preserves_raise {A : Type} (e : Exc) : preserves I (@raise S A e).
Proof. by intros s. Qed.

Lemma process_element_preserves (has_getparent : bool)
    (processor_func : Kind -> Node -> M S unit) :
  (forall tag_name me, preserves I (dispatch has_getparent processor_func tag_name me)) ->
  forall elem frames ancestors p,
    preserves I (process_element has_getparent processor_func frames ancestors p elem).
Proof.
  intros Hd elem.
  induction elem as [t a tx tl cs IH] using Element_ind'. intros frames ancestors p.
  destruct frames as [|frames]; [apply preserves_raise|].
  destruct t as [tag_name|]; simpl; [|apply preserves_ret].
  apply preserves_bind; [apply Hd|]. intros _.
  match goal with
  | |- context [?e :: ancestors] => generalize (e :: ancestors)
  end.
  intros chain. generalize 0%nat.
  induction IH as [|c cs Hc _ IHcs]; intros i; [apply preserves_ret|].
  apply preserves_bind; [apply Hc|]. intros _. apply IHcs.
Qed.

Lemma process_children_preserves (has_getparent : bool)
    (processor_func : Kind -> Node -> M S unit) :
  (forall tag_name me, preserves I (dispatch has_getparent processor_func tag_name me)) ->
  forall cs frames parent_chain p i,
    preserves I (process_children has_getparent processor_func frames parent_chain p i cs).
Proof.
  intros Hd cs frames.
  induction cs as [|c cs IH]; intros chain p i; simpl; [apply preserves_ret|].
  apply preserves_bind; [by apply process_element_preserves|]. intros _. apply IH.
Qed.

Lemma walk_preserves (has_getparent : bool)
    (processor_func : Kind -> Node -> M S unit) :
  (forall tag_name me, preserves I (dispatch has_getparent processor_func tag_name me)) ->
  forall frames root,
    preserves I (_process_content_in_original_order has_getparent processor_func
                   frames root).
Proof.
  intros Hd [|frames] root; [apply preserves_raise|].
  by apply process_children_preserves.
Qed.
End Preservation.

Lemma last_sep_decompose {A : Type} `{EqDecision A} (c : A) (s : list A) :
  c ∉ s \/ exists k m, s = k ++ c :: m /\ c ∉ m.
Proof.
  induction s as [|x s [Hs|(k & m & -> & Hm)]].
  - left. apply not_elem_of_nil.
  - destruct (decide (x = c)) as [->|Hx].
    + right. by exists [], s.
    + left. by apply not_elem_of_cons.
  - right. by exists (x :: k), m.
Qed.

Lemma tag_is_target_local (t n : pystr) :
  125%N ∉ n ->
  tag_is_target (TagStr t) [n] = bool_decide (local_part t = n).
Proof.
  intros Hn. rewrite <- tag_matches_local by done.
  unfold tag_is_target, tag_matches. cbn [existsb]. rewrite orb_false_r.
  change (py "}" ++ n) with (125%N :: n).
  destruct (endswith t (125%N :: n)) eqn:E1; [reflexivity|].
  destruct (bool_decide (t = n)) eqn:E2; [reflexivity|]. simpl.
  symmetry. apply bool_decide_eq_false. intros Hl.
  apply bool_decide_eq_false in E2.
  destruct (last_sep_decompose 125%N t) as [Ht|(k & m & -> & Hm)].
  - unfold local_part in Hl. rewrite py_last_split_no_sep in Hl by done. done.
  - unfold local_part in Hl.
    rewrite py_last_split_app, py_last_split_no_sep in Hl by done. subst m.
    apply not_true_iff_false in E1. apply E1, endswith_spec. by exists k.
Qed.

Lemma inside_chain_false (chain : list Element) (targets : list pystr) :
  inside_chain true chain targets = false ->
  forall a, a ∈ chain -> tag_is_target (tag a) targets = false.
Proof.
  induction chain as [|cur up IH]; simpl; [by intros _ a ?%elem_of_nil|].
  destruct (tag_is_target (tag cur) targets) eqn:E; [done|].
  intros Hup a [->|Ha]%elem_of_cons; [done | by apply IH].
Qed.



(** Were the elements to carry parent links, as the loop of
    [_is_inside_element] expects, no text unit would come from below a
    table. *)
Lemma walk_with_parent_links (frames : nat) (root : Element) (n : Node) :
  (KText, n) ∈ emitted_units frames true root ->
  forall a, a ∈ n_ancestors n -> is_table a = false.
Proof.
  set (I := fun calls : list (Kind * Node) =>
              forall u, u ∈ calls -> u.1 = KText ->
                        inside_chain true (n_elem u.2 :: n_ancestors u.2) [py "Table"] = false).
  assert (preserves I (_process_content_in_original_order true record_call frames root))
    as Hp.
  { apply walk_preserves. intros tag_name me calls Hcalls.
    assert (forall k, (k = KText -> _is_inside_element true me [py "Table"] = false) ->
                      I (record_call k me calls).2) as Hrec.
    { intros k Hk u [Hu|Hu%list_elem_of_singleton]%elem_of_app; [by apply Hcalls|].
      subst u. exact Hk. }
    unfold dispatch.
    destruct (bool_decide (_ = py "Table")); [by apply Hrec|].
    destruct (bool_decide (_ = py "Image")); [by apply Hrec|].
    destruct (bool_decide (_ ∈ _)); cbn [andb]; [|exact Hcalls].
    destruct (_is_inside_element true me [py "Table"]) eqn:E; cbn [negb]; [exact Hcalls|].
    by apply Hrec. }
  intros Hn a Ha.
  specialize (Hp [] (fun u Hu => False_ind _ (proj1 (elem_of_nil u) Hu)) _ Hn eq_refl).
  pose proof (inside_chain_false (n_elem n :: n_ancestors n) _ Hp a
                (list_elem_of_further _ _ _ Ha)) as Ht.
  unfold is_table. destruct (tag a) as [t|]; [|done].
  rewrite <- (tag_is_target_local t (py "Table")) by compute_done. done.
Qed.

(** C2 fails on the code.  On a page whose table holds one cell, the
    walk emits the cell's [OE] and its [T] as text units although a
    [Table] element is among their ancestors.  The page nests ten deep;
    this is what the walk does whenever the interpreter allows it the
    ten nested calls it needs, that is with [10 + frames] of them for
    any [frames]. *)
Theorem walk_emits_text_below_table (frames : nat) :
  (fun u : Kind * Node => (u.1, n_path u.2))
    <$> emitted_units (10 + frames) etree_has_getparent Samples.page_with_table
  = [ (KText, [0; 0; 0]); (KText, [0; 0; 0; 0]); (KText, [0; 0; 1]);
      (KTable, [0; 0; 1; 0]);
      (KText, [0; 0; 1; 0; 0; 0; 0; 0]); (KText, [0; 0; 1; 0; 0; 0; 0; 0; 0]) ]%nat
  /\ exists n,
       (KText, n) ∈ emitted_units (10 + frames) etree_has_getparent Samples.page_with_table
       /\ n_elem n = Samples.cell_T
       /\ Samples.cell_table ∈ n_ancestors n
       /\ is_table Samples.cell_table = true.
Proof.
  split; [by vm_compute|].
  eexists {| n_path := _; n_elem := Samples.cell_T; n_ancestors := _ |}.
  split; [|split; [reflexivity|split; [|reflexivity]]].
  - vm_compute. do 5 apply list_elem_of_further. apply list_elem_of_here.
  - vm_compute. do 4 apply list_elem_of_further. apply list_elem_of_here.
Qed.

(** ** Page conversion *)

(** C3.  When the markup does not parse, the conversion to Word and the
    conversion to PDF both return [False], and neither touches a file:
    nothing is created at the output path. *)
Theorem parse_failure_writes_nothing {H : Type} (L : PyLib) (R : Renderers H)
    (frames : nat) (xml page_name out_path : pystr) (include_images : bool) (w : World H) :
  fromstring L xml = None ->
  (exists w', parse_page_to_docx L R frames xml page_name out_path include_images w
              = (inr false, w')
              /\ fs w' = fs w /\ fs w' !! out_path = fs w !! out_path)
  /\ (exists w', parse_page_to_pdf L R frames xml page_name out_path include_images w
                 = (inr false, w')
                 /\ fs w' = fs w /\ fs w' !! out_path = fs w !! out_path).
Proof.
  intros Hparse.
  unfold parse_page_to_docx, parse_page_to_pdf, try_except, bind, ET_fromstring.
  rewrite Hparse. simpl. split; eexists; (split; [reflexivity|]); done.
Qed.

Lemma parse_failure_writes_nothing_witness :
  fromstring Reference.lib Samples.broken_xml = None
  /\ (exists w', parse_page_to_docx Reference.lib Samples.renderers 900 Samples.broken_xml
                   (py "Notes") (py "page.docx") true Samples.empty_world = (inr false, w')
                 /\ fs w' = fs Samples.empty_world
                 /\ fs w' !! py "page.docx" = fs Samples.empty_world !! py "page.docx")
  /\ (exists w', parse_page_to_pdf Reference.lib Samples.renderers 900 Samples.broken_xml
                   (py "Notes") (py "page.pdf") true Samples.empty_world = (inr false, w')
                 /\ fs w' = fs Samples.empty_world
                 /\ fs w' !! py "page.pdf" = fs Samples.empty_world !! py "page.pdf").
Proof.
  assert (Hp : fromstring Reference.lib Samples.broken_xml = None) by reflexivity.
  exact (conj Hp
           (conj (proj1 (parse_failure_writes_nothing Reference.lib Samples.renderers 900
                           Samples.broken_xml (py "Notes") (py "page.docx") true
                           Samples.empty_world Hp))
                 (proj2 (parse_failure_writes_nothing Reference.lib Samples.renderers 900
                           Samples.broken_xml (py "Notes") (py "page.pdf") true
                           Samples.empty_world Hp)))).
Defined.

(** ** Column segmentation of PDF tables (app.py) *)

Section SegmentFacts.
Context (L : PyLib).

Lemma parsed_rows_nonempty (table_elem : Element) (row : list pystr) :
  row ∈ App._parse_table_rows_clean L table_elem -> row <> [].
Proof.
  unfold App._parse_table_rows_clean.
  rewrite list_elem_of_In, filter_In. intros [_ Hrow] ->. done.
Qed.

Lemma unique_rows_grow (rows : list (list pystr)) :
  forall st : list (list pystr) * gset pystr,
  exists more, (foldl App.keep_unique st rows).1 = st.1 ++ more.
Proof.
  induction rows as [|row rows IH]; intros st; cbn [foldl].
  - exists []. by rewrite app_nil_r.
  - destruct (IH (App.keep_unique st row)) as [more ->].
    unfold App.keep_unique. case_bool_decide; [by exists more|].
    exists (row :: more). cbn [fst]. by rewrite <- app_assoc.
Qed.

Lemma unique_rows_head (row : list pystr) (rows : list (list pystr)) :
  exists more, App.unique_rows (row :: rows) = row :: more.
Proof.
  unfold App.unique_rows. cbn [foldl].
  destruct (unique_rows_grow rows (App.keep_unique ([], ∅) row)) as [more ->].
  unfold App.keep_unique. cbn [snd].
  rewrite (bool_decide_eq_false_2 (_ ∈ ∅)) by apply not_elem_of_empty.
  by exists more.
Qed.

Lemma max_cols_fold (rows : list (list pystr)) :
  forall m,
    (m <= foldl (fun max_cols (row : list pystr) => Nat.max max_cols (length row)) m rows)%nat.
Proof.
  induction rows as [|row rows IH]; intros m; simpl; [lia|].
  etransitivity; [|apply IH]. lia.
Qed.

Lemma max_cols_head (row : list pystr) (rows : list (list pystr)) :
  (length row <= App.max_cols_of (row :: rows))%nat.
Proof.
  unfold App.max_cols_of. simpl. etransitivity; [|apply max_cols_fold]. lia.
Qed.

Lemma cap_rows_nonempty (rows : list (list pystr)) :
  rows <> [] -> App.cap_rows rows <> [].
Proof.
  unfold App.cap_rows. destruct rows as [|row rows]; [done|]. intros _.
  by destruct (App.MAX_ROWS <? length (row :: rows))%nat.
Qed.

End SegmentFacts.

Lemma max_cols_of_bound (rows : list (list pystr)) :
  Forall (fun row => (length row <= App.max_cols_of rows)%nat) rows.
Proof.
  unfold App.max_cols_of. generalize 0%nat.
  induction rows as [|row rows IH]; intros m; [constructor|].
  cbn [foldl]. constructor.
  - etransitivity; [|apply max_cols_fold]. lia.
  - apply IH.
Qed.

Lemma cap_rows_sub (rows : list (list pystr)) :
  (length (App.cap_rows rows) <= App.MAX_ROWS)%nat
  /\ forall row, row ∈ App.cap_rows rows -> row ∈ rows.
Proof.
  unfold App.cap_rows.
  destruct (App.MAX_ROWS <? length rows)%nat eqn:E;
    [apply Nat.ltb_lt in E | apply Nat.ltb_ge in E].
  - split; [rewrite length_take; lia|]. intros row Hrow.
    rewrite <- (take_drop App.MAX_ROWS rows). apply elem_of_app. by left.
  - split; [lia | done].
Qed.

Lemma prepared_rows_lengths (L : PyLib) (rows_data : list (list pystr)) :
  Forall (fun row => length row
                     = App.max_cols_of (App.clean_rows L (App.unique_rows rows_data)))
         (App.prepared_rows L rows_data).
Proof.
  unfold App.prepared_rows. cbv zeta.
  set (cleaned := App.clean_rows L (App.unique_rows rows_data)).
  destruct (cap_rows_sub (App.pad_row (App.max_cols_of cleaned) <$> cleaned)) as [_ Hsub].
  apply Forall_forall. intros row Hrow%Hsub.
  apply list_elem_of_fmap in Hrow as (r & -> & Hr).
  pose proof (max_cols_of_bound cleaned) as Hb. rewrite Forall_forall in Hb.
  specialize (Hb r Hr). unfold App.pad_row. rewrite length_app, length_replicate. lia.
Qed.

Lemma ceil_div_covers (n step : nat) :
  (1 <= step)%nat ->
  (n <= (n + step - 1) / step * step)%nat
  /\ ((n + step - 1) / step * step < n + step)%nat.
Proof.
  intros Hstep.
  pose proof (Nat.div_mod_eq (n + step - 1) step) as Hdm.
  pose proof (Nat.mod_upper_bound (n + step - 1) step ltac:(lia)) as Hmod.
  split; nia.
Qed.

Lemma slices_concat {A : Type} (row : list A) (step : nat) :
  (1 <= step)%nat ->
  forall k,
    concat ((fun i => App.slice (i * step) (Nat.min (i * step + step) (length row)) row)
              <$> seq 0 k)
    = take (k * step) row.
Proof.
  intros Hstep k. induction k as [|k IH]; [done|].
  rewrite seq_S, fmap_app, concat_app, IH. cbn [fmap list_fmap concat Nat.add].
  rewrite app_nil_r. unfold App.slice. rewrite take_take_drop.
  destruct (decide (k * step + step <= length row)%nat) as [Hle|Hgt].
  - f_equal. lia.
  - rewrite !take_ge by lia. done.
Qed.

(** A table with an extracted row has a column at least, its bands
    are 1 to 8 columns wide, and its grid has a row. *)
Lemma prepared_grid_facts (L : PyLib) (table_elem : Element) :
  App._parse_table_rows_clean L table_elem <> [] ->
  let rows_data := App._parse_table_rows_clean L table_elem in
  let n := App.max_cols_of (App.clean_rows L (App.unique_rows rows_data)) in
  (1 <= n)%nat
  /\ (1 <= App.MAX_COLS_PER_SEGMENT n <= 8)%nat
  /\ App.unique_rows rows_data <> []
  /\ App.prepared_rows L rows_data <> [].
Proof.
  intros Hne rows_data n. subst n rows_data.
  destruct (App._parse_table_rows_clean L table_elem) as [|row rows] eqn:Hrows; [done|].
  set (n := App.max_cols_of (App.clean_rows L (App.unique_rows (row :: rows)))).
  assert (row <> []) as Hrow.
  { apply (parsed_rows_nonempty L table_elem). rewrite Hrows. apply list_elem_of_here. }
  destruct (unique_rows_head row rows) as [more Huniq].
  assert (1 <= n)%nat as Hn.
  { subst n. rewrite Huniq. unfold App.clean_rows. rewrite fmap_cons.
    etransitivity; [|apply max_cols_head]. rewrite length_fmap.
    destruct row; [done | simpl; lia]. }
  split; [exact Hn|]. split; [|split].
  - unfold App.MAX_COLS_PER_SEGMENT.
    destruct (n <=? 8)%nat eqn:E8; [apply Nat.leb_le in E8; lia|].
    destruct (n <=? 12)%nat; lia.
  - by rewrite Huniq.
  - unfold App.prepared_rows. apply cap_rows_nonempty.
    rewrite Huniq. unfold App.clean_rows. by rewrite !fmap_cons.
Qed.

(** ** Rendering: what reaches the story *)

Lemma tables_of_app (s1 s2 : list Flowable) :
  tables_of (s1 ++ s2) = tables_of s1 ++ tables_of s2.
Proof. apply omap_app. Qed.

Lemma plain_app (a b : pystr) : plain (a ++ b) = plain a && plain b.
Proof.
  unfold plain, char_in.
  rewrite !(bool_decide_ext _ _ (elem_of_app a b _)), !bool_decide_or.
  by destruct (bool_decide (60%N ∈ a)), (bool_decide (60%N ∈ b)),
       (bool_decide (38%N ∈ a)), (bool_decide (38%N ∈ b)).
Qed.


Lemma plain_cons (c : N) (s : pystr) :
  c <> 60%N -> c <> 38%N -> plain s = true -> plain (c :: s) = true.
Proof.
  intros H60 H38 Hs. change (c :: s) with ([c] ++ s). rewrite plain_app, Hs.
  unfold plain, char_in.
  rewrite !bool_decide_eq_false_2; [done | |]; rewrite list_elem_of_singleton; congruence.
Qed.

Lemma plain_digits (fuel n : nat) (acc : pystr) :
  plain acc = true -> plain (digits_of fuel n acc) = true.
Proof.
  revert n acc. induction fuel as [|fuel IH]; intros n acc Hacc; [done|].
  cbn [digits_of].
  assert (plain ((48 + N.of_nat (n mod 10))%N :: acc) = true) as Hd.
  { pose proof (Nat.mod_upper_bound n 10 ltac:(lia)).
    apply plain_cons; [lia | lia | done]. }
  destruct (n / 10 =? 0)%nat; [done | by apply IH].
Qed.

Lemma plain_py_str (n : nat) : plain (py_str n) = true.
Proof. by apply plain_digits. Qed.

Lemma plain_or_space (cell_text : pystr) :
  plain cell_text = true -> plain (App.or_space cell_text) = true.
Proof. unfold App.or_space. by destruct cell_text. Qed.

Lemma plain_seg_title (table_idx max_cols n_segments seg_idx start_col end_col : nat) :
  plain (App.seg_title table_idx max_cols n_segments seg_idx start_col end_col) = true.
Proof.
  unfold App.seg_title. destruct (seg_idx =? 0)%nat;
    rewrite !plain_app, !plain_py_str; reflexivity.
Qed.

Lemma rectangular_spec {A : Type} (grid : list (list A)) (n : nat) :
  grid <> [] -> (1 <= n)%nat -> Forall (fun row => length row = n) grid ->
  rectangular grid = true.
Proof.
  destruct grid as [|first rest]; [done|]. intros _ Hn [Hfirst Hrest]%Forall_cons.
  cbn [rectangular]. apply andb_true_iff. split.
  - destruct first; [simpl in Hfirst; lia | done].
  - apply forallb_forall. intros row Hrow%list_elem_of_In.
    rewrite Forall_forall in Hrest. apply Nat.eqb_eq. rewrite Hfirst. by apply Hrest.
Qed.

Lemma rectangular_shape {A B : Type} (g1 : list (list A)) (g2 : list (list B)) :
  length <$> g1 = length <$> g2 -> rectangular g1 = rectangular g2.
Proof.
  destruct g1 as [|r1 g1], g2 as [|r2 g2]; try done.
  rewrite !fmap_cons. intros [= Hr Hg]. cbn [rectangular]. f_equal.
  - by destruct r1, r2.
  - rewrite Hr. clear r1 Hr. revert g2 Hg.
    induction g1 as [|x g1 IH]; intros [|y g2]; try done.
    rewrite !fmap_cons. intros [= Hx Hg]. cbn [forallb]. rewrite Hx. f_equal. by apply IH.
Qed.

(** The library of the examples reads the cells of a grid of plain
    texts. *)
Lemma reportlab_accepts_plain_cells (shown : pystr -> pystr) (grid : list (list pystr)) :
  (forall cell_text, plain cell_text = true -> plain (shown cell_text) = true) ->
  Forall (Forall (fun cell_text => plain cell_text = true)) grid ->
  accepts_cells Cases.reportlab shown grid.
Proof.
  intros Hshown Hgrid style row cell_text Hrow Hcell. cbn [Cases.reportlab Paragraph_accepts].
  rewrite Forall_forall in Hgrid. specialize (Hgrid row Hrow).
  rewrite Forall_forall in Hgrid. by apply Hshown, Hgrid.
Qed.

Section StoryFacts.
Context (RL : ReportLab).

Lemma reads_weaken {A : Type} (c : M Output A) (P P' : A -> Prop) (ok ok' : Prop) :
  reads c P ok -> (forall a, P a -> P' a) -> (ok' -> ok) -> reads c P' ok'.
Proof.
  intros Hc HP Hok o. destruct (Hc o) as (r & Hr & Hval & Hret).
  exists r. split; [done|].
  split; [intros a Ha; by apply HP, Hval | intros H; by apply Hret, Hok].
Qed.

Lemma reads_Paragraph (text : pystr) (style : Style) :
  reads (Paragraph RL text style) (fun para => para = (style, text))
    (Paragraph_accepts RL style text = true).
Proof.
  intros o. unfold Paragraph. destruct (Paragraph_accepts RL style text).
  - exists (inr (style, text)). split; [done|].
    split; [by intros a [= <-] | by eexists].
  - eexists (inl _). split; [reflexivity|]. split; [by intros a | by intros].
Qed.

Lemma reads_comprehension {A B : Type} (f : A -> M Output B) (P : A -> B -> Prop)
    (ok : A -> Prop) (l : list A) :
  (forall x, x ∈ l -> reads (f x) (P x) (ok x)) ->
  reads (comprehension f l) (fun ys => Forall2 P l ys) (forall x, x ∈ l -> ok x).
Proof.
  induction l as [|x l IH]; intros Hf o.
  - exists (inr []). split; [done|].
    split; [intros a [= <-]; constructor | by eexists].
  - destruct (Hf x ltac:(apply list_elem_of_here) o) as (r & Hr & HP & Hok).
    cbn [comprehension]. unfold bind at 1. rewrite Hr.
    destruct r as [e|y].
    { exists (inl e). split; [done|]. split; [by intros a|].
      intros Hall. destruct Hok as [a Ha]; [apply Hall, list_elem_of_here | done]. }
    destruct (IH (fun z Hz => Hf z (list_elem_of_further _ _ _ Hz)) o)
      as (r' & Hr' & HP' & Hok').
    unfold bind at 1. rewrite Hr'. destruct r' as [e|ys].
    { exists (inl e). split; [done|]. split; [by intros a|].
      intros Hall. destruct Hok' as [a Ha]; [|done].
      intros z Hz. by apply Hall, list_elem_of_further. }
    exists (inr (y :: ys)). split; [done|]. split; [|by eexists].
    intros a [= <-]. constructor; [by apply HP | by apply HP'].
Qed.

Lemma reads_comprehension_enumerate {A B : Type} (f : nat -> A -> M Output B)
    (P : A -> B -> Prop) (ok : A -> Prop) (l : list A) :
  (forall i x, x ∈ l -> reads (f i x) (P x) (ok x)) ->
  forall i,
    reads (comprehension_enumerate f i l) (fun ys => Forall2 P l ys)
      (forall x, x ∈ l -> ok x).
Proof.
  induction l as [|x l IH]; intros Hf i o.
  - exists (inr []). split; [done|].
    split; [intros a [= <-]; constructor | by eexists].
  - destruct (Hf i x ltac:(apply list_elem_of_here) o) as (r & Hr & HP & Hok).
    cbn [comprehension_enumerate]. unfold bind at 1. rewrite Hr.
    destruct r as [e|y].
    { exists (inl e). split; [done|]. split; [by intros a|].
      intros Hall. destruct Hok as [a Ha]; [apply Hall, list_elem_of_here | done]. }
    destruct (IH (fun j z Hz => Hf j z (list_elem_of_further _ _ _ Hz)) (S i) o)
      as (r' & Hr' & HP' & Hok').
    unfold bind at 1. rewrite Hr'. destruct r' as [e|ys].
    { exists (inl e). split; [done|]. split; [by intros a|].
      intros Hall. destruct Hok' as [a Ha]; [|done].
      intros z Hz. by apply Hall, list_elem_of_further. }
    exists (inr (y :: ys)). split; [done|]. split; [|by eexists].
    intros a [= <-]. constructor; [by apply HP | by apply HP'].
Qed.

(** The paragraphs of a row: their texts are the texts handed over. *)
Lemma reads_row (g : pystr -> pystr) (style : Style) (row : list pystr) :
  reads (comprehension (fun cell_text => Paragraph RL (g cell_text) style) row)
    (fun paras => snd <$> paras = g <$> row)
    (forall cell_text, cell_text ∈ row -> Paragraph_accepts RL style (g cell_text) = true).
Proof.
  eapply reads_weaken.
  - apply (reads_comprehension _ (fun cell_text para => para = (style, g cell_text))
             (fun cell_text => Paragraph_accepts RL style (g cell_text) = true)).
    intros x _. apply reads_Paragraph.
  - intros paras Hall. induction Hall as [|x y l ys -> _ IH]; [done|].
    rewrite !fmap_cons. by rewrite IH.
  - done.
Qed.

Lemma Forall2_rows {A B : Type} (P : list A -> list B -> Prop) (f : list B -> list A)
    (h : list A -> list A) (l : list (list A)) (ys : list (list B)) :
  (forall x y, P x y -> f y = h x) ->
  Forall2 P l ys -> f <$> ys = h <$> l.
Proof.
  intros HP Hall. induction Hall as [|x y l' ys' Hxy _ IH]; [done|].
  rewrite !fmap_cons. by rewrite IH, (HP _ _ Hxy).
Qed.

Lemma reads_table_flow_of (segment_data : list (list pystr)) :
  reads (App.table_flow_of RL segment_data)
    (fun table_flow =>
       (fun row : list Para => snd <$> row) <$> table_flow
       = (fun row : list pystr => App.or_space <$> row) <$> segment_data)
    (forall row cell_text style,
        row ∈ segment_data -> cell_text ∈ row ->
        Paragraph_accepts RL style (App.or_space cell_text) = true).
Proof.
  eapply reads_weaken.
  - apply (reads_comprehension_enumerate _
             (fun (row : list pystr) (paras : list Para) =>
                snd <$> paras = App.or_space <$> row)
             (fun row => forall cell_text style,
                  cell_text ∈ row ->
                  Paragraph_accepts RL style (App.or_space cell_text) = true)).
    intros i row _. eapply reads_weaken; [apply reads_row | done |].
    intros Hrow cell_text Hcell. by apply Hrow.
  - intros table_flow Hall.
    by apply (Forall2_rows _ (fun row : list Para => snd <$> row)
                (fun row : list pystr => App.or_space <$> row) _ _
                (fun x y Hxy => Hxy) Hall).
  - intros Hall row Hrow cell_text style Hcell. by apply (Hall row).
Qed.

(** *** Tables added, however the run ends *)

Lemma adds_weaken {A : Type} (E E' : list (list (list pystr))) (c : M Output A) :
  adds E c -> E `sublist_of` E' -> adds E' c.
Proof.
  intros Hc Hsub o. destruct (Hc o) as (T & HT & Heq).
  exists T. split; [by etransitivity | done].
Qed.

Lemma adds_same {A : Type} (c : M Output A) :
  (forall o, tables_of (story (c o).2) = tables_of (story o)) -> adds [] c.
Proof. intros Hc o. exists []. split; [done|]. by rewrite app_nil_r. Qed.

Lemma adds_ret {A : Type} (a : A) : adds [] (@ret Output A a).
Proof. by apply adds_same. Qed.

Lemma adds_raise {A : Type} (e : Exc) : adds [] (@raise Output A e).
Proof. by apply adds_same. Qed.

Lemma adds_logger (line : pystr) : adds [] (logger line).
Proof. by apply adds_same. Qed.

Lemma adds_append_paragraph (para : Para) : adds [] (story_append (FParagraph para)).
Proof.
  apply adds_same. intros o. cbn [story_append snd story].
  rewrite tables_of_app. cbn. by rewrite app_nil_r.
Qed.

Lemma adds_append_spacer (height : nat) : adds [] (story_append (FSpacer height)).
Proof.
  apply adds_same. intros o. cbn [story_append snd story].
  rewrite tables_of_app. cbn. by rewrite app_nil_r.
Qed.

Lemma adds_bind {A B : Type} (E1 E2 : list (list (list pystr))) (c : M Output A)
    (k : A -> M Output B) :
  adds E1 c -> (forall a, adds E2 (k a)) -> adds (E1 ++ E2) (bind c k).
Proof.
  intros Hc Hk o. destruct (Hc o) as (T1 & HT1 & Heq1). unfold bind.
  destruct (c o) as [[e|a] o1]; cbn [snd] in *.
  - exists T1. split; [by apply sublist_inserts_r | done].
  - destruct (Hk a o1) as (T2 & HT2 & Heq2). exists (T1 ++ T2).
    split; [by apply sublist_app|]. by rewrite Heq2, Heq1, app_assoc.
Qed.

Lemma adds_bind_reads {A B : Type} (E : list (list (list pystr))) (c : M Output A)
    (P : A -> Prop) (ok : Prop) (k : A -> M Output B) :
  reads c P ok -> (forall a, P a -> adds E (k a)) -> adds E (bind c k).
Proof.
  intros Hc Hk o. destruct (Hc o) as (r & Hr & HP & _). unfold bind. rewrite Hr.
  destruct r as [e|a].
  - exists []. split; [apply sublist_nil_l | by rewrite app_nil_r].
  - by apply Hk, HP.
Qed.

Lemma adds_try {A : Type} (E : list (list (list pystr))) (body : M Output A)
    (handler : Exc -> M Output A) :
  adds E body -> (forall e, adds [] (handler e)) -> adds E (try_except body handler).
Proof.
  intros Hb Hh o. destruct (Hb o) as (T & HT & Heq). unfold try_except.
  destruct (body o) as [[e|a] o1]; cbn [snd] in *.
  - destruct (Hh e o1) as (T' & HT' & Heq'). apply sublist_nil_r in HT'. subst T'.
    exists T. split; [done|]. by rewrite Heq', app_nil_r.
  - by exists T.
Qed.

Lemma adds_for_each {A : Type} (body : A -> M Output unit) (l : list A) :
  (forall x, adds [] (body x)) -> adds [] (for_each body l).
Proof.
  intros Hb. induction l as [|x l IH]; [apply adds_ret|].
  cbn [for_each]. apply (adds_bind [] []); [apply Hb | by intros _].
Qed.

Lemma adds_for_enumerate {A : Type} (tbl : A -> list (list pystr))
    (body : nat -> A -> M Output unit) (l : list A) :
  (forall i x, adds [tbl x] (body i x)) ->
  forall i, adds (tbl <$> l) (for_enumerate body i l).
Proof.
  intros Hb. induction l as [|x l IH]; intros i; [apply adds_ret|].
  cbn [for_enumerate]. rewrite fmap_cons.
  apply (adds_bind [tbl x] (tbl <$> l)); [apply Hb | intros _; apply IH].
Qed.

Lemma adds_for_enumerate_lists {A : Type} (tbls : A -> list (list (list pystr)))
    (body : nat -> A -> M Output unit) (l : list A) :
  (forall i x, adds (tbls x) (body i x)) ->
  forall i, adds (concat (tbls <$> l)) (for_enumerate body i l).
Proof.
  intros Hb. induction l as [|x l IH]; intros i; [apply adds_ret|].
  cbn [for_enumerate]. rewrite fmap_cons. cbn [concat].
  apply adds_bind; [apply Hb | intros _; apply IH].
Qed.

(** *** Tables added when the run goes through *)

Lemma adds_all_ret {A : Type} (a : A) : adds_all [] (@ret Output A a).
Proof. intros o. exists a, o. by rewrite app_nil_r. Qed.

Lemma adds_all_append_paragraph (para : Para) :
  adds_all [] (story_append (FParagraph para)).
Proof.
  intros o. eexists tt, _. split; [reflexivity|]. cbn [story].
  rewrite tables_of_app. cbn. by rewrite !app_nil_r.
Qed.

Lemma adds_all_append_spacer (height : nat) :
  adds_all [] (story_append (FSpacer height)).
Proof.
  intros o. eexists tt, _. split; [reflexivity|]. cbn [story].
  rewrite tables_of_app. cbn. by rewrite !app_nil_r.
Qed.


Lemma adds_all_bind {A B : Type} (E1 E2 : list (list (list pystr))) (c : M Output A)
    (k : A -> M Output B) :
  adds_all E1 c -> (forall a, adds_all E2 (k a)) -> adds_all (E1 ++ E2) (bind c k).
Proof.
  intros Hc Hk o. destruct (Hc o) as (a & o1 & Hrun & Heq).
  destruct (Hk a o1) as (b & o2 & Hrun' & Heq').
  exists b, o2. unfold bind. rewrite Hrun. split; [done|].
  by rewrite Heq', Heq, app_assoc.
Qed.

Lemma adds_all_bind_reads {A B : Type} (E : list (list (list pystr))) (c : M Output A)
    (P : A -> Prop) (ok : Prop) (k : A -> M Output B) :
  reads c P ok -> ok -> (forall a, P a -> adds_all E (k a)) -> adds_all E (bind c k).
Proof.
  intros Hc Hok Hk o. destruct (Hc o) as (r & Hr & HP & Hret).
  destruct (Hret Hok) as [a ->]. unfold bind. rewrite Hr. by apply Hk, HP.
Qed.

Lemma adds_all_try {A : Type} (E : list (list (list pystr))) (body : M Output A)
    (handler : Exc -> M Output A) :
  adds_all E body -> adds_all E (try_except body handler).
Proof.
  intros Hb o. destruct (Hb o) as (a & o1 & Hrun & Heq).
  exists a, o1. unfold try_except. by rewrite Hrun.
Qed.

Lemma adds_all_for_enumerate {A : Type} (tbl : A -> list (list pystr))
    (body : nat -> A -> M Output unit) (l : list A) :
  (forall i x, x ∈ l -> adds_all [tbl x] (body i x)) ->
  forall i, adds_all (tbl <$> l) (for_enumerate body i l).
Proof.
  induction l as [|x l IH]; intros Hb i; [apply adds_all_ret|].
  cbn [for_enumerate]. rewrite fmap_cons.
  apply (adds_all_bind [tbl x] (tbl <$> l)); [apply Hb, list_elem_of_here|].
  intros _. apply IH. intros j z Hz. by apply Hb, list_elem_of_further.
Qed.
End StoryFacts.

(** ** The segments of a PDF table (app.py) *)

Section RenderFacts.
Context (RL : ReportLab).

Lemma adds_append_keep_in_frame (table_flow : list (list Para)) :
  adds [(fun row : list Para => snd <$> row) <$> table_flow]
    (story_append (FKeepInFrame table_flow)).
Proof.
  intros o. eexists. split; [reflexivity|]. cbn [story_append snd story].
  by rewrite tables_of_app.
Qed.

Lemma adds_all_append_keep_in_frame (table_flow : list (list Para)) :
  adds_all [(fun row : list Para => snd <$> row) <$> table_flow]
    (story_append (FKeepInFrame table_flow)).
Proof.
  intros o. eexists tt, _. split; [reflexivity|]. cbn [story].
  by rewrite tables_of_app.
Qed.

Lemma segment_texts (grid : list (list pystr)) (start_col end_col : nat) :
  (fun row : list pystr => App.or_space <$> row) <$> (App.slice start_col end_col <$> grid)
  = band_table grid (start_col, end_col).
Proof. unfold band_table. by rewrite <- list_fmap_compose. Qed.

(** The calls of a turn that put no table into the story. *)
Lemma adds_segment_title (table_idx max_cols n_segments seg_idx start_col end_col : nat)
    (shown : bool) :
  adds []
    (if shown
     then bind (Paragraph RL
                  (App.seg_title table_idx max_cols n_segments seg_idx start_col end_col)
                  StyleSegmentTitle)
            (fun title => story_append (FParagraph title))
     else ret tt).
Proof.
  destruct shown; [|apply adds_ret].
  eapply adds_bind_reads; [apply reads_Paragraph|].
  intros title _. apply adds_append_paragraph.
Qed.

Lemma adds_text_mode (segment_data : list (list pystr)) :
  adds []
    (bind (logger (py "table rendering failed, using text mode"))
       (fun _ =>
          bind (for_each
                  (fun row =>
                     bind (Paragraph RL (py_join (py " | ") row) StyleNormal)
                       (fun line => story_append (FParagraph line)))
                  segment_data)
            (fun _ => story_append (FSpacer 8)))).
Proof.
  apply (adds_bind [] []); [apply adds_logger|]. intros _.
  apply (adds_bind [] []); [|intros _; apply adds_append_spacer].
  apply adds_for_each. intros row.
  eapply adds_bind_reads; [apply reads_Paragraph|].
  intros line _. apply adds_append_paragraph.
Qed.

(** One turn of the loop adds the table of its columns, or none. *)
Lemma adds_render_segment (table_idx max_cols per_segment n_segments : nat)
    (cleaned_rows : list (list pystr)) (seg_idx start_col : nat) :
  adds [band_table cleaned_rows (start_col, Nat.min (start_col + per_segment) max_cols)]
    (App.render_segment RL table_idx max_cols per_segment n_segments cleaned_rows
       seg_idx start_col).
Proof.
  unfold App.render_segment. cbv zeta.
  set (end_col := Nat.min (start_col + per_segment) max_cols).
  assert (forall A (c : M Output A), adds [] c ->
            adds [band_table cleaned_rows (start_col, end_col)] c) as Hnone.
  { intros A c Hc. eapply adds_weaken; [exact Hc | apply sublist_nil_l]. }
  destruct (nonempty (App.slice start_col end_col <$> cleaned_rows));
    cbn [negb]; [|apply Hnone, adds_ret].
  eapply adds_bind_reads; [apply reads_table_flow_of|].
  intros table_flow Htexts. rewrite segment_texts in Htexts.
  destruct (nonempty table_flow); cbn [negb]; [|apply Hnone, adds_ret].
  apply (adds_bind [] [_]); [apply adds_segment_title|]. intros _.
  apply adds_try; [|intros e; apply adds_text_mode].
  destruct table_flow as [|first rest]; [apply Hnone, adds_raise|].
  destruct (nonempty first); cbn [negb]; [|apply Hnone, adds_raise].
  destruct (Table_accepts RL (first :: rest)); [|apply Hnone, adds_raise].
  rewrite <- Htexts.
  apply (adds_bind [_] []); [apply adds_append_keep_in_frame|].
  intros _. apply adds_append_spacer.
Qed.

(** With a library that reads the texts and builds the table, the
    turn adds the table of its columns. *)
Lemma adds_all_render_segment (table_idx max_cols per_segment n_segments : nat)
    (cleaned_rows : list (list pystr)) (seg_idx start_col : nat) :
  accepts_plain_text RL ->
  builds_rectangular RL ->
  cleaned_rows <> [] ->
  accepts_cells RL App.or_space cleaned_rows ->
  Forall (fun row => length row = max_cols) cleaned_rows ->
  (1 <= per_segment)%nat ->
  (start_col < max_cols)%nat ->
  adds_all [band_table cleaned_rows (start_col, Nat.min (start_col + per_segment) max_cols)]
    (App.render_segment RL table_idx max_cols per_segment n_segments cleaned_rows
       seg_idx start_col).
Proof.
  intros Hplain Hbuild Hne Hcells Hrect Hper Hstart.
  unfold App.render_segment. cbv zeta.
  set (end_col := Nat.min (start_col + per_segment) max_cols).
  assert (nonempty (App.slice start_col end_col <$> cleaned_rows) = true) as ->
    by (by destruct cleaned_rows).
  cbn [negb].
  eapply adds_all_bind_reads; [apply reads_table_flow_of | |].
  { intros row cell_text style (r & -> & Hr)%list_elem_of_fmap Hcell.
    apply (Hcells style r cell_text Hr).
    apply (subseteq_drop start_col r), (subseteq_take (end_col - start_col)).
    exact Hcell. }
  intros table_flow Htexts. rewrite segment_texts in Htexts.
  assert (rectangular table_flow = true) as Hshape.
  { rewrite (rectangular_shape table_flow (band_table cleaned_rows (start_col, end_col))).
    - apply (rectangular_spec _ (end_col - start_col)).
      + unfold band_table. by destruct cleaned_rows.
      + subst end_col. lia.
      + unfold band_table. apply Forall_fmap.
        eapply Forall_impl; [exact Hrect|]. cbn. intros row Hrow.
        rewrite length_fmap, length_take, length_drop. subst end_col. lia.
    - rewrite <- Htexts, <- list_fmap_compose. apply list_fmap_ext.
      intros i row _. cbn. by rewrite length_fmap. }
  destruct table_flow as [|first rest]; [done|]. cbn [nonempty negb].
  apply (adds_all_bind [] [_]).
  { destruct (_ && _); [|apply adds_all_ret].
    eapply adds_all_bind_reads; [apply reads_Paragraph | apply Hplain, plain_seg_title|].
    intros title _. apply adds_all_append_paragraph. }
  intros _. apply adds_all_try.
  assert (nonempty first = true) as -> by (by apply andb_true_iff in Hshape as [? _]).
  cbn [negb]. rewrite (Hbuild _ Hshape), <- Htexts.
  apply (adds_all_bind [_] []); [apply adds_all_append_keep_in_frame|].
  intros _. apply adds_all_append_spacer.
Qed.

Context (L : PyLib).

Lemma adds_truncate_note (truncated : bool) :
  adds []
    (if truncated
     then bind (story_append (FSpacer 3))
            (fun _ =>
               bind (bind (Paragraph RL App.truncate_note StyleTruncateNote)
                       (fun note => story_append (FParagraph note)))
                 (fun _ => story_append (FSpacer 8)))
     else ret tt).
Proof.
  destruct truncated; [|apply adds_ret].
  apply (adds_bind [] []); [apply adds_append_spacer|]. intros _.
  apply (adds_bind [] []); [|intros _; apply adds_append_spacer].
  eapply adds_bind_reads; [apply reads_Paragraph|].
  intros note _. apply adds_append_paragraph.
Qed.

Lemma column_bands_starts (max_cols : nat) (col_segments : list nat) :
  App.py_range max_cols (App.MAX_COLS_PER_SEGMENT max_cols) = Some col_segments ->
  forall grid,
    (fun start_col =>
       band_table grid
         (start_col, Nat.min (start_col + App.MAX_COLS_PER_SEGMENT max_cols) max_cols))
      <$> col_segments
    = band_table grid <$> App.column_bands max_cols.
Proof.
  intros Hrange grid. unfold App.column_bands. cbv zeta. rewrite Hrange. cbn [default]. unfold id.
  by rewrite <- list_fmap_compose.
Qed.

(** However the rendering of a table ends, the tables it has put into
    the story are tables of its column bands, in their order. *)
Lemma adds_render_table (table_idx : nat) (table_elem : Element) :
  adds (band_tables L table_elem) (App.render_table RL L table_idx table_elem).
Proof.
  unfold band_tables, table_grid, table_columns, App.render_table. cbv zeta.
  set (rows_data := App._parse_table_rows_clean L table_elem).
  set (n := App.max_cols_of (App.clean_rows L (App.unique_rows rows_data))).
  set (grid := App.prepared_rows L rows_data).
  assert (forall A (c : M Output A), adds [] c ->
            adds (band_table grid <$> App.column_bands n) c) as Hnone.
  { intros A c Hc. eapply adds_weaken; [exact Hc | apply sublist_nil_l]. }
  destruct (nonempty rows_data); cbn [negb]; [|apply Hnone, adds_ret].
  destruct (nonempty (App.unique_rows rows_data)); cbn [negb]; [|apply Hnone, adds_ret].
  destruct (App.py_range n (App.MAX_COLS_PER_SEGMENT n)) as [col_segments|] eqn:Hrange;
    [|apply Hnone, adds_raise].
  rewrite <- (column_bands_starts n col_segments Hrange grid).
  rewrite <- (app_nil_r (_ <$> col_segments)).
  apply adds_bind; [|intros _; apply adds_truncate_note].
  apply (adds_for_enumerate
           (fun start_col =>
              band_table grid
                (start_col, Nat.min (start_col + App.MAX_COLS_PER_SEGMENT n) n))).
  intros i start_col. apply adds_render_segment.
Qed.

Lemma range_starts (n step : nat) (starts : list nat) :
  App.py_range n step = Some starts ->
  (1 <= step)%nat /\ forall start_col, start_col ∈ starts -> (start_col < n)%nat.
Proof.
  unfold App.py_range. destruct (step =? 0)%nat eqn:E; [done|].
  apply Nat.eqb_neq in E. intros [= <-]. split; [lia|].
  intros s (i & -> & Hi)%list_elem_of_fmap. apply elem_of_seq in Hi as [_ Hi].
  cbn [Nat.add] in Hi. destruct (ceil_div_covers n step ltac:(lia)) as [_ Hceil]. nia.
Qed.

(** With a library that reads the cell texts, and plain text, as
    paragraphs and builds rectangular tables, a table is rendered
    through: a table for every column band.  A table without rows has
    no band and adds nothing. *)
Lemma adds_all_render_table (table_idx : nat) (table_elem : Element) :
  accepts_plain_text RL ->
  builds_rectangular RL ->
  accepts_cells RL App.or_space (table_grid L table_elem) ->
  adds_all (band_tables L table_elem) (App.render_table RL L table_idx table_elem).
Proof.
  intros Hplain Hbuild Hcells.
  unfold band_tables, table_grid, table_columns, App.render_table in *. cbv zeta.
  destruct (decide (App._parse_table_rows_clean L table_elem = [])) as [Hempty|Hne].
  { rewrite Hempty. apply adds_all_ret. }
  destruct (prepared_grid_facts L table_elem Hne) as (Hn & Hper & Huniq & Hprep).
  cbv zeta in Hn, Hper, Huniq, Hprep.
  set (rows_data := App._parse_table_rows_clean L table_elem) in *.
  set (grid := App.prepared_rows L rows_data) in *.
  set (n := App.max_cols_of (App.clean_rows L (App.unique_rows rows_data))) in *.
  assert (nonempty rows_data = true) as -> by (by destruct rows_data).
  assert (nonempty (App.unique_rows rows_data) = true) as ->
    by (by destruct (App.unique_rows rows_data)).
  cbn [negb].
  destruct (App.py_range n (App.MAX_COLS_PER_SEGMENT n)) as [col_segments|] eqn:Hrange.
  2: { unfold App.py_range in Hrange.
       rewrite (proj2 (Nat.eqb_neq _ 0)) in Hrange by lia. done. }
  rewrite <- (column_bands_starts n col_segments Hrange grid).
  destruct (range_starts _ _ _ Hrange) as [_ Hstarts].
  rewrite <- (app_nil_r (_ <$> col_segments)).
  apply adds_all_bind.
  - apply (adds_all_for_enumerate
             (fun start_col =>
                band_table grid
                  (start_col, Nat.min (start_col + App.MAX_COLS_PER_SEGMENT n) n))).
    intros i start_col Hstart. apply adds_all_render_segment; try done.
    + apply prepared_rows_lengths.
    + lia.
    + by apply Hstarts.
  - intros _. destruct (App.MAX_ROWS <? _)%nat; [|apply adds_all_ret].
    apply (adds_all_bind [] []); [apply adds_all_append_spacer|]. intros _.
    apply (adds_all_bind [] []); [|intros _; apply adds_all_append_spacer].
    eapply adds_all_bind_reads; [apply reads_Paragraph | by apply Hplain|].
    intros note _. apply adds_all_append_paragraph.
Qed.

(** The tables of a page: however [_tables_pdf_enhanced] ends, what it
    has put into the story are band tables of the page's tables, in
    document order; it returns, the exception of a library call being
    caught and logged. *)
Lemma adds_tables_pdf_enhanced (root : Element) :
  adds (concat (band_tables L <$> (snd <$> _findall_local root (py "Table"))))
    (App._tables_pdf_enhanced RL L root).
Proof.
  unfold App._tables_pdf_enhanced. cbv zeta.
  apply adds_try; [|intros e; apply adds_logger].
  destruct (_findall_local root (py "Table")) as [|t ts] eqn:Htables;
    cbn [nonempty negb]; [apply adds_ret|].
  rewrite <- list_fmap_compose.
  apply (adds_for_enumerate_lists (fun table_elem : ref => band_tables L table_elem.2)).
  intros i table_elem. apply adds_render_table.
Qed.

Lemma tables_pdf_enhanced_returns (root : Element) (o : Output) :
  exists o', App._tables_pdf_enhanced RL L root o = (inr tt, o').
Proof.
  unfold App._tables_pdf_enhanced, try_except.
  match goal with
  | |- context [match ?body o with _ => _ end] => destruct (body o) as [[e|[]] o1]
  end; by eexists.
Qed.



End RenderFacts.




(** * Further properties of the code *)

(** ** Table extraction: what is kept, and in which order *)

Lemma foldl_add_row_spec (rows : list (list pystr)) :
  forall st : list (list pystr) * gset pystr,
  exists kept,
    (foldl add_row st rows).1 = st.1 ++ kept
    /\ kept `sublist_of` rows
    /\ Forall (fun row => has_content row = true) kept
    /\ (forall s, s ∈ (foldl add_row st rows).2 <-> s ∈ st.2 \/ s ∈ row_signature <$> kept)
    /\ (forall row, row ∈ rows -> has_content row = true ->
                    row_signature row ∈ (foldl add_row st rows).2).
Proof.
  induction rows as [|row rows IH]; intros st; cbn [foldl].
  - exists []. rewrite app_nil_r. repeat split; try done.
    + intros Hs. by left.
    + intros [Hs|Hs]; [done | by apply elem_of_nil in Hs].
    + by intros row ?%elem_of_nil.
  - destruct (IH (add_row st row)) as (kept & Hkept & Hsub & Hall & Hseen & Hsig).
    unfold add_row in *. fold (has_content row) in *.
    destruct (has_content row) eqn:Hc; cbn [andb] in *.
    + case_bool_decide as Hin; cbn [negb fst snd] in *.
      * exists kept. split; [done|]. split; [by apply sublist_cons|]. split; [done|].
        split; [done|]. intros r [->|Hr]%elem_of_cons Hr'; [|by apply Hsig].
        apply Hseen. by left.
      * exists (row :: kept). rewrite Hkept, <- app_assoc. split; [done|].
        split; [by apply sublist_skip|]. split; [by constructor|]. split.
        -- intros s. rewrite Hseen, elem_of_union, elem_of_singleton, fmap_cons, elem_of_cons.
           tauto.
        -- intros r [->|Hr]%elem_of_cons Hr'; [|by apply Hsig].
           apply Hseen. left. apply elem_of_union. left. by apply elem_of_singleton.
    + exists kept. split; [done|]. split; [by apply sublist_cons|]. split; [done|].
      split; [done|]. intros r [->|Hr]%elem_of_cons Hr'; [congruence | by apply Hsig].
Qed.

Lemma has_content_spec (row_data : list pystr) :
  has_content row_data = true <->
  row_data <> [] /\ exists cell, cell ∈ row_data /\ py_strip cell <> [].
Proof.
  unfold has_content. rewrite andb_true_iff, existsb_exists. split.
  - intros [Hne (cell & Hin & Hcell)]. split; [by destruct row_data|].
    exists cell. split; [by apply list_elem_of_In|]. by destruct (py_strip cell).
  - intros [Hne (cell & Hin & Hcell)]. split; [by destruct row_data|].
    exists cell. split; [by apply list_elem_of_In|]. by destruct (py_strip cell).
Qed.

(** X1.  The rows of the extracted grid are rows of the table's [Row]
    elements, in document order, and each of them has a cell that is not
    blank. *)
Theorem extract_table_rows_in_order (L : PyLib) (table_elem : Element) :
  _extract_table_data_enhanced L table_elem
    `sublist_of` ((fun row_elem : ref => row_data_of L row_elem.2)
                    <$> _findall_local table_elem (py "Row"))
  /\ (forall row, row ∈ _extract_table_data_enhanced L table_elem ->
        row <> [] /\ exists cell, cell ∈ row /\ py_strip cell <> []).
Proof.
  unfold _extract_table_data_enhanced.
  destruct (foldl_add_row_spec
              ((fun row_elem : ref => row_data_of L row_elem.2)
                 <$> _findall_local table_elem (py "Row")) ([], ∅))
    as (kept & -> & Hsub & Hall & _).
  cbn [fst app]. split; [done|].
  intros row Hrow. apply has_content_spec. rewrite Forall_forall in Hall. by apply Hall.
Qed.

Lemma extract_table_rows_in_order_witness :
  [py "C"; py "D"] ∈ _extract_table_data_enhanced Reference.lib Samples.table_ab
  /\ [py "C"; py "D"] <> []
  /\ exists cell, cell ∈ [py "C"; py "D"] /\ py_strip cell <> [].
Proof.
  assert (Hin : [py "C"; py "D"] ∈ _extract_table_data_enhanced Reference.lib Samples.table_ab)
    by (vm_compute; apply list_elem_of_further, list_elem_of_here).
  exact (conj Hin
           (proj2 (extract_table_rows_in_order Reference.lib Samples.table_ab) _ Hin)).
Defined.

(** X2.  No signature is lost: for every [Row] element whose cells are
    not all blank, the extracted grid holds a row with the same
    signature (the row itself, or an earlier one). *)
Theorem extract_table_keeps_every_signature (L : PyLib) (table_elem : Element)
    (row_elem : ref) :
  row_elem ∈ _findall_local table_elem (py "Row") ->
  has_content (row_data_of L row_elem.2) = true ->
  exists kept,
    kept ∈ _extract_table_data_enhanced L table_elem
    /\ py_join (py "|") (take 3 kept)
       = py_join (py "|") (take 3 (row_data_of L row_elem.2)).
Proof.
  intros Hrow Hcontent. unfold _extract_table_data_enhanced.
  destruct (foldl_add_row_spec
              ((fun row_elem : ref => row_data_of L row_elem.2)
                 <$> _findall_local table_elem (py "Row")) ([], ∅))
    as (kept & Hkept & _ & _ & Hseen & Hsig).
  rewrite Hkept. cbn [fst app].
  assert (row_signature (row_data_of L row_elem.2) ∈ row_signature <$> kept) as Hin.
  { specialize (Hsig (row_data_of L row_elem.2)).
    apply Hseen in Hsig as [Hs|Hs]; [by apply elem_of_empty in Hs | done | | done].
    apply list_elem_of_fmap. by exists row_elem. }
  apply list_elem_of_fmap in Hin as (r & Heq & Hr).
  exists r. split; [done|]. by rewrite <- !row_signature_take.
Qed.

Lemma extract_table_keeps_every_signature_witness :
  ([2%nat], Samples.elem "{one}Row" [Samples.cell_of "C"; Samples.cell_of "D"])
    ∈ _findall_local Samples.table_ab (py "Row")
  /\ has_content (row_data_of Reference.lib
                    (Samples.elem "{one}Row" [Samples.cell_of "C"; Samples.cell_of "D"])) = true
  /\ exists kept,
       kept ∈ _extract_table_data_enhanced Reference.lib Samples.table_ab
       /\ py_join (py "|") (take 3 kept)
          = py_join (py "|")
              (take 3 (row_data_of Reference.lib
                         (Samples.elem "{one}Row" [Samples.cell_of "C"; Samples.cell_of "D"]))).
Proof.
  assert (Hin : ([2%nat], Samples.elem "{one}Row" [Samples.cell_of "C"; Samples.cell_of "D"])
                  ∈ _findall_local Samples.table_ab (py "Row"))
    by (vm_compute; do 2 apply list_elem_of_further; apply list_elem_of_here).
  assert (Hc : has_content (row_data_of Reference.lib
                    (Samples.elem "{one}Row" [Samples.cell_of "C"; Samples.cell_of "D"])) = true)
    by reflexivity.
  exact (conj Hin (conj Hc
           (extract_table_keeps_every_signature Reference.lib Samples.table_ab _ Hin Hc))).
Defined.

(** X3.  A cell adds no blank cell when its column-span attribute is
    missing or empty, is not a number, or is a number below 2 (zero and
    negative spans included). *)
Theorem cell_without_span_adds_one_entry (L : PyLib) (cell_elem : Element) :
  colspan_attribute cell_elem = None
  \/ (exists v, colspan_attribute cell_elem = Some v
                /\ (py_int L v = None \/ exists k, py_int L v = Some k /\ (k <= 1)%Z)) ->
  _get_cell_span L cell_elem (py "colspan") = default 1%Z (colspan_attribute cell_elem ≫= py_int L)
  /\ cell_entries L cell_elem = [_extract_cell_text_enhanced L cell_elem].
Proof.
  intros Hcases.
  assert (_get_cell_span L cell_elem (py "colspan")
          = default 1%Z (colspan_attribute cell_elem ≫= py_int L)) as Hspan.
  { unfold _get_cell_span. rewrite first_span_head.
    change (head _) with (colspan_attribute cell_elem).
    by destruct (colspan_attribute cell_elem). }
  split; [exact Hspan|].
  unfold cell_entries. rewrite Hspan.
  destruct Hcases as [Hnone|(v & Hv & Hrest)].
  - rewrite Hnone. reflexivity.
  - rewrite Hv. cbn [mbind option_bind].
    destruct Hrest as [Hn|(k & Hk & Hle)].
    + rewrite Hn. reflexivity.
    + rewrite Hk. change (default 1%Z (Some k)) with k.
      replace (Z.to_nat (k - 1)) with 0%nat by lia. reflexivity.
Qed.

Lemma cell_without_span_adds_one_entry_witness :
  (colspan_attribute Cases.negative_span_cell = None
   \/ (exists v, colspan_attribute Cases.negative_span_cell = Some v
                 /\ (py_int Reference.lib v = None
                     \/ exists k, py_int Reference.lib v = Some k /\ (k <= 1)%Z)))
  /\ (colspan_attribute Cases.worded_span_cell = None
      \/ (exists v, colspan_attribute Cases.worded_span_cell = Some v
                    /\ (py_int Reference.lib v = None
                        \/ exists k, py_int Reference.lib v = Some k /\ (k <= 1)%Z)))
  /\ cell_entries Reference.lib Cases.negative_span_cell
     = [_extract_cell_text_enhanced Reference.lib Cases.negative_span_cell]
  /\ cell_entries Reference.lib Cases.worded_span_cell
     = [_extract_cell_text_enhanced Reference.lib Cases.worded_span_cell].
Proof.
  assert (H1 : colspan_attribute Cases.negative_span_cell = None
               \/ (exists v, colspan_attribute Cases.negative_span_cell = Some v
                             /\ (py_int Reference.lib v = None
                                 \/ exists k, py_int Reference.lib v = Some k /\ (k <= 1)%Z))).
  { right. exists (py "-2"). split; [reflexivity|]. right. exists (-2)%Z.
    split; [reflexivity | lia]. }
  assert (H2 : colspan_attribute Cases.worded_span_cell = None
               \/ (exists v, colspan_attribute Cases.worded_span_cell = Some v
                             /\ (py_int Reference.lib v = None
                                 \/ exists k, py_int Reference.lib v = Some k /\ (k <= 1)%Z))).
  { right. exists (py "two"). split; [reflexivity|]. left. reflexivity. }
  exact (conj H1 (conj H2
           (conj (proj2 (cell_without_span_adds_one_entry Reference.lib _ H1))
                 (proj2 (cell_without_span_adds_one_entry Reference.lib _ H2))))).
Defined.

(** ** Image format detection and extraction *)

Lemma startswith_take {A : Type} `{EqDecision A} (pre s : list A) (n : nat) :
  (length pre <= n)%nat -> startswith (take n s) pre = startswith s pre.
Proof.
  revert s n. induction pre as [|p pre IH]; intros s n Hn; [done|].
  destruct n as [|n]; [simpl in Hn; lia|].
  destruct s as [|c s]; [done|]. simpl. rewrite IH by (simpl in Hn; lia). done.
Qed.

Lemma first_signature_take (data : pybytes) (n : nat) (table : list (pybytes * pystr)) :
  Forall (fun entry => (length entry.1 <= n)%nat) table ->
  first_signature (take n data) table = first_signature data table.
Proof.
  induction 1 as [|[sig ext] table Hlen _ IH]; [done|].
  simpl. rewrite startswith_take by done. by rewrite IH.
Qed.

Lemma first_signature_in (data : pybytes) (table : list (pybytes * pystr)) (ext : pystr) :
  first_signature data table = Some ext -> ext ∈ table.*2.
Proof.
  induction table as [|[sig ext'] table IH]; [done|]. simpl.
  destruct (startswith data sig).
  - intros [= ->]. apply list_elem_of_here.
  - intros Hext. apply list_elem_of_further. by apply IH.
Qed.

Lemma first_signature_none_inv (data : pybytes) (table : list (pybytes * pystr))
    (sig : pybytes) (ext : pystr) :
  first_signature data table = None -> (sig, ext) ∈ table -> startswith data sig = false.
Proof.
  induction table as [|[sig' ext'] table IH]; [by intros _ ?%elem_of_nil|]. simpl.
  destruct (startswith data sig') eqn:E; [done|].
  intros Hnone [[= -> ->]|Hin]%elem_of_cons; [done | by apply IH].
Qed.

(** X4.  The detected extension is always one of the six known ones, and
    it depends on the first 8 bytes of the data only. *)
Theorem detect_image_format_by_header (data : pybytes) :
  _detect_image_format data
    ∈ [py ".jpg"; py ".png"; py ".gif"; py ".ico"; py ".bmp"; py ".webp"]
  /\ _detect_image_format data = _detect_image_format (take 8 data).
Proof.
  assert (forall d, first_signature d supported_image_extensions = None ->
                    _detect_image_format d = py ".png") as Hdefault.
  { intros d Hd. unfold _detect_image_format. rewrite Hd.
    rewrite (first_signature_none_inv d _ (bytes_of "RIFF") (py ".webp") Hd); [done|].
    unfold supported_image_extensions. rewrite !elem_of_cons. tauto. }
  assert (first_signature (take 8 data) supported_image_extensions
          = first_signature data supported_image_extensions) as Htake.
  { apply first_signature_take. unfold supported_image_extensions.
    repeat constructor; vm_compute; lia. }
  destruct (first_signature data supported_image_extensions) as [ext|] eqn:E.
  - split.
    + unfold _detect_image_format. rewrite E.
      apply first_signature_in in E. unfold supported_image_extensions in E.
      cbn [fmap list_fmap snd] in E.
      rewrite !elem_of_cons in *. rewrite elem_of_nil in E. tauto.
    + unfold _detect_image_format. by rewrite Htake, E.
  - split.
    + rewrite (Hdefault _ E). rewrite !elem_of_cons. tauto.
    + rewrite (Hdefault _ E). symmetry. apply Hdefault. by rewrite Htake.
Qed.

Section ImageSoundness.
Context (L : PyLib).

Lemma from_attributes_some (img_elem : Element) (attrs : list pystr)
  (found : pybytes * pystr) :
from_attributes L img_elem attrs = Some found ->
exists s, s ∈ omap (fun attr => match get img_elem attr with
                                | Some (c :: v) => Some (c :: v)
                                | _ => None
                                end) attrs
          /\ try_decode L s = Some found.
Proof.
induction attrs as [|attr attrs IH]; simpl; [done|].
destruct (get img_elem attr) as [[|c v]|]; simpl; try exact IH.
destruct (try_decode L (c :: v)) as [f|] eqn:T.
- intros [= ->]. exists (c :: v). split; [apply list_elem_of_here | done].
- intros (s & Hs & Hdec)%IH. exists s. split; [by apply list_elem_of_further | done].
Qed.

Lemma from_children_some (cs : list Element) (found : pybytes * pystr) :
from_children L cs = Some found ->
exists s, s ∈ omap (fun child => match text child with
                                 | Some (c :: v) =>
                                     if tag_has_keyword L (tag child)
                                     then Some (c :: v) else None
                                 | _ => None
                                 end) cs
          /\ try_decode L s = Some found.
Proof.
induction cs as [|child cs IH]; simpl; [done|].
destruct (text child) as [[|c v]|]; simpl; try exact IH.
destruct (tag_has_keyword L (tag child)); [|exact IH].
destruct (try_decode L (c :: v)) as [f|] eqn:T.
- intros [= ->]. exists (c :: v). split; [apply list_elem_of_here | done].
- intros (s & Hs & Hdec)%IH. exists s. split; [by apply list_elem_of_further | done].
Qed.

Lemma from_descendants_some (ds : list ref) (found : pybytes * pystr) :
(from_descendants L ds).2 = Some found ->
exists s, s ∈ omap (fun d : ref => match text d.2 with
                                   | Some (c :: v) =>
                                       if scan_guard (py_strip (c :: v))
                                       then Some (py_strip (c :: v)) else None
                                   | _ => None
                                   end) ds
          /\ try_decode L s = Some found.
Proof.
induction ds as [|d ds IH]; simpl; [done|].
destruct (text d.2) as [[|c v]|]; simpl; try exact IH.
destruct (scan_guard (py_strip (c :: v))) eqn:G.
- destruct (negb (bool_decide (d.1 = []))).
  + destruct (try_decode L (py_strip (c :: v))) as [f|] eqn:T; simpl.
    * intros [= ->]. exists (py_strip (c :: v)). split; [apply list_elem_of_here | done].
    * intros (s & Hs & Hdec)%IH. exists s. split; [by apply list_elem_of_further | done].
  + intros (s & Hs & Hdec)%IH. exists s. split; [by apply list_elem_of_further | done].
- destruct (negb (bool_decide (d.1 = []))); exact IH.
Qed.
End ImageSoundness.

(** X5.  Whatever image extraction returns is the decoding of one of the
    element's candidate payloads, is longer than 100 bytes, and carries
    the extension detected from its own bytes. *)
Theorem extract_image_sound (L : PyLib) (img_elem : Element) (data : pybytes) (ext : pystr) :
  _extract_image_data_enhanced L img_elem = Some (data, ext) ->
  (100 < length data)%nat
  /\ ext = _detect_image_format data
  /\ exists s, s ∈ candidate_payloads L img_elem /\ b64decode L s = Some data.
Proof.
  unfold _extract_image_data_enhanced, candidate_payloads. intros Hfound.
  assert (exists s, s ∈ candidate_payloads L img_elem
                    /\ try_decode L s = Some (data, ext)) as (s & Hs & Hdec).
  { unfold candidate_payloads.
    destruct (from_attributes L img_elem image_attributes) as [f|] eqn:E1.
    - injection Hfound as ->. apply from_attributes_some in E1 as (s & Hs & Hdec).
      exists s. rewrite !elem_of_app. auto.
    - destruct (from_children L (children img_elem)) as [f|] eqn:E2.
      + injection Hfound as ->. apply from_children_some in E2 as (s & Hs & Hdec).
        exists s. rewrite !elem_of_app. auto.
      + rewrite from_descendants_skips_root in Hfound.
        apply from_descendants_some in Hfound as (s & Hs & Hdec).
        exists s. rewrite !elem_of_app. auto. }
  apply try_decode_some in Hdec as (Hd & Hlen & Hext). simpl in *. eauto.
Qed.

Lemma extract_image_sound_witness :
  _extract_image_data_enhanced Reference.lib Samples.marked_image
  = Some (replicate 105 x00, py ".png")
  /\ (100 < length (replicate 105 x00))%nat
  /\ py ".png" = _detect_image_format (replicate 105 x00)
  /\ exists s, s ∈ candidate_payloads Reference.lib Samples.marked_image
               /\ b64decode Reference.lib s = Some (replicate 105 x00).
Proof.
  assert (Hf : _extract_image_data_enhanced Reference.lib Samples.marked_image
               = Some (replicate 105 x00, py ".png")) by (vm_compute; reflexivity).
  exact (conj Hf (extract_image_sound Reference.lib Samples.marked_image _ _ Hf)).
Defined.

(** X6.  A payload in the [data] attribute wins: when it decodes to more
    than 100 bytes, extraction returns these bytes, whatever the children
    and descendants of the element hold. *)
Theorem extract_image_prefers_data_attribute (L : PyLib) (img_elem : Element)
    (value : pystr) (data : pybytes) :
  get img_elem (py "data") = Some value ->
  value <> [] ->
  b64decode L value = Some data ->
  (100 < length data)%nat ->
  _extract_image_data_enhanced L img_elem = Some (data, _detect_image_format data).
Proof.
  intros Hget Hne Hdec Hlen.
  unfold _extract_image_data_enhanced, image_attributes.
  cbn [fmap list_fmap from_attributes]. rewrite Hget.
  destruct value as [|c v]; [done|].
  unfold try_decode. rewrite Hdec.
  by rewrite (proj2 (Nat.ltb_lt 100 (length data)) Hlen).
Qed.

Lemma extract_image_prefers_data_attribute_witness :
  get Cases.attr_image (py "data") = Some Cases.attr_payload
  /\ Cases.attr_payload <> []
  /\ b64decode Reference.lib Cases.attr_payload = Some (replicate 105 x00)
  /\ (100 < length (replicate 105 x00))%nat
  /\ _extract_image_data_enhanced Reference.lib Cases.attr_image
     = Some (replicate 105 x00, _detect_image_format (replicate 105 x00)).
Proof.
  assert (Hg : get Cases.attr_image (py "data") = Some Cases.attr_payload)
    by (vm_compute; reflexivity).
  assert (Hn : Cases.attr_payload <> []) by (vm_compute; discriminate).
  assert (Hd : b64decode Reference.lib Cases.attr_payload = Some (replicate 105 x00))
    by (vm_compute; reflexivity).
  assert (Hl : (100 < length (replicate 105 x00))%nat) by (vm_compute; lia).
  exact (conj Hg (conj Hn (conj Hd (conj Hl
           (extract_image_prefers_data_attribute Reference.lib Cases.attr_image
              Cases.attr_payload (replicate 105 x00) Hg Hn Hd Hl))))).
Defined.

(** ** Cleaned text *)

Lemma lstrip_suffix (s : pystr) : exists a, s = a ++ lstrip s.
Proof.
  induction s as [|c s [a Ha]]; [by exists []|]. simpl.
  destruct (isspace c); [|by exists []].
  exists (c :: a). simpl. by rewrite <- Ha.
Qed.

Lemma lstrip_head (s : pystr) (c : N) : head (lstrip s) = Some c -> isspace c = false.
Proof.
  induction s as [|x s IH]; [done|]. simpl.
  destruct (isspace x) eqn:E; [exact IH|]. by intros [= <-].
Qed.

Lemma py_strip_factor (s : pystr) : exists a b, s = a ++ py_strip s ++ b.
Proof.
  unfold py_strip. destruct (lstrip_suffix s) as [a Ha].
  destruct (lstrip_suffix (reverse (lstrip s))) as [b Hb].
  exists a, (reverse b). rewrite <- reverse_app, <- Hb, reverse_involutive. exact Ha.
Qed.

Lemma py_strip_ends (s : pystr) (c : N) :
  head (py_strip s) = Some c \/ last (py_strip s) = Some c -> isspace c = false.
Proof.
  unfold py_strip. intros [Hh|Hl].
  - destruct (lstrip_suffix (reverse (lstrip s))) as [b Hb].
    apply (f_equal reverse) in Hb. rewrite reverse_involutive, reverse_app in Hb.
    apply (lstrip_head s). rewrite Hb.
    destruct (reverse (lstrip (reverse (lstrip s)))); [done | exact Hh].
  - rewrite last_reverse in Hl. by apply lstrip_head in Hl.
Qed.

Lemma re_sub_runs_elem (cls : N -> bool) (s : pystr) :
  forall in_run c, c ∈ re_sub_runs cls in_run s -> c = 32%N \/ (c ∈ s /\ cls c = false).
Proof.
  induction s as [|x s IH]; intros in_run c; simpl; [by intros ?%elem_of_nil|].
  destruct (cls x) eqn:E.
  - destruct in_run.
    + intros [?|[? ?]]%IH; [by left | right; split; [by apply list_elem_of_further | done]].
    + intros [->|[?|[? ?]]%IH]%elem_of_cons; [by left | by left |].
      right. split; [by apply list_elem_of_further | done].
  - intros [->|[?|[? ?]]%IH]%elem_of_cons.
    + right. split; [apply list_elem_of_here | done].
    + by left.
    + right. split; [by apply list_elem_of_further | done].
Qed.

Lemma re_sub_runs_spaced (cls : N -> bool) (s : pystr) :
  cls 32%N = true ->
  forall in_run,
    (forall i, re_sub_runs cls in_run s !! i = Some 32%N ->
               re_sub_runs cls in_run s !! S i <> Some 32%N)
    /\ (in_run = true -> head (re_sub_runs cls in_run s) <> Some 32%N).
Proof.
  intros Hsp. induction s as [|x s IH]; intros in_run; simpl; [done|].
  destruct (cls x) eqn:E.
  - destruct in_run; [apply IH|]. split; [|done].
    intros [|i]; simpl.
    + intros _. rewrite <- head_lookup. by apply IH.
    + apply IH.
  - assert (x <> 32%N) as Hx by (intros ->; congruence).
    split.
    + intros [|i]; simpl; [by intros [= ?] | apply IH].
    + intros _ [= ?]. done.
Qed.

Lemma factor_spaced (a s b : pystr) :
  (forall i, (a ++ s ++ b) !! i = Some 32%N -> (a ++ s ++ b) !! S i <> Some 32%N) ->
  forall i, s !! i = Some 32%N -> s !! S i <> Some 32%N.
Proof.
  intros Hall i Hi Hsi. apply (Hall (length a + i)%nat).
  - rewrite lookup_app_r by lia. replace (length a + i - length a)%nat with i by lia.
    by apply lookup_app_l_Some.
  - replace (S (length a + i)) with (length a + S i)%nat by lia.
    rewrite lookup_app_r by lia. replace (length a + S i - length a)%nat with (S i) by lia.
    by apply lookup_app_l_Some.
Qed.

Lemma normalized_single_spaced (s : pystr) :
  single_spaced (py_strip (re_sub_runs isspace false s)).
Proof.
  destruct (py_strip_factor (re_sub_runs isspace false s)) as (a & b & Hf).
  repeat split.
  - intros c Hc Hsp.
    assert (c ∈ re_sub_runs isspace false s) as Hin
      by (rewrite Hf, !elem_of_app; auto).
    apply re_sub_runs_elem in Hin as [?|[_ ?]]; [done | congruence].
  - apply (factor_spaced a _ b). rewrite <- Hf. by apply re_sub_runs_spaced.
  - intros c Hc. apply (py_strip_ends (re_sub_runs isspace false s)). by left.
  - intros c Hc. apply (py_strip_ends (re_sub_runs isspace false s)). by right.
Qed.

(** X7.  The text of a cell is white-space normalized in both parsers:
    it holds no white space but single plain spaces, and none at its
    ends. *)
Theorem cell_text_single_spaced (L : PyLib) (cell_elem : Element) :
  single_spaced (_extract_cell_text_enhanced L cell_elem)
  /\ single_spaced (App._extract_clean_cell_text L cell_elem).
Proof. split; apply normalized_single_spaced. Qed.

Lemma replace_char_elem (old new c : N) (s : pystr) :
  c ∈ replace_char old new s -> c = new \/ (c ∈ s /\ c <> old).
Proof.
  unfold replace_char. intros (x & -> & Hx)%list_elem_of_fmap.
  destruct (x =? old)%N eqn:E; [by left|].
  right. split; [done|]. by apply N.eqb_neq.
Qed.

Lemma clean_text_content_ends (L : PyLib) (text : pystr) (c : N) :
  head (_clean_text_content L text) = Some c \/ last (_clean_text_content L text) = Some c ->
  isspace c = false.
Proof.
  unfold _clean_text_content. destruct (negb (nonempty text)); [by intros [?|?]|].
  cbv zeta. apply py_strip_ends.
Qed.

(** X8.  Cleaned text neither starts nor ends with white space, and
    holds no tab, vertical tab or form feed, no en dash and no curly
    quote; the empty text cleans to the empty text. *)
Theorem clean_text_content_normal (L : PyLib) (text : pystr) :
  _clean_text_content L [] = []
  /\ (forall c, head (_clean_text_content L text) = Some c -> isspace c = false)
  /\ (forall c, last (_clean_text_content L text) = Some c -> isspace c = false)
  /\ (forall c, c ∈ _clean_text_content L text ->
                c ∉ [9; 11; 12; 8211; 8220; 8221; 8216; 8217]%N).
Proof.
  split; [done|]. unfold _clean_text_content.
  destruct (negb (nonempty text)).
  { repeat split; try done. by intros c ?%elem_of_nil. }
  cbv zeta.
  match goal with |- context [py_strip ?t] => set (cleaned := t) end.
  split; [|split].
  - intros c Hc. apply (py_strip_ends cleaned). by left.
  - intros c Hc. apply (py_strip_ends cleaned). by right.
  - intros c Hc. destruct (py_strip_factor cleaned) as (a & b & Hf).
    assert (c ∈ cleaned) as Hin by (rewrite Hf, !elem_of_app; auto).
    unfold cleaned in Hin.
    apply re_sub_runs_elem in Hin as [->|[Hin Htab]]; [compute_done|].
    assert (c <> 9 /\ c <> 11 /\ c <> 12)%N as (H9 & H11 & H12).
    { repeat split; intros ->; discriminate Htab. }
    repeat (apply replace_char_elem in Hin as [Hin|[Hin ?]]; [subst c; compute_done|]).
    rewrite !not_elem_of_cons. repeat split; try done. apply not_elem_of_nil.
Qed.

Lemma clean_text_content_normal_witness :
  head (_clean_text_content Reference.lib (py "  a <i>b</i>  ")) = Some 97%N
  /\ isspace 97 = false
  /\ _clean_text_content Reference.lib (py "  a <i>b</i>  ") = py "a b".
Proof.
  assert (Hh : head (_clean_text_content Reference.lib (py "  a <i>b</i>  ")) = Some 97%N)
    by reflexivity.
  exact (conj Hh
           (conj (proj1 (proj2 (clean_text_content_normal Reference.lib
                                  (py "  a <i>b</i>  "))) 97%N Hh)
                 eq_refl)).
Defined.

(** ** The walk: which elements are handed over, and in which order *)









(** ** Conversion: what reaches the caller *)

Section Outcome.
Context {S : Type}.




Lemma always_raises_bind_l {A B : Type} (c : M S A) (k : A -> M S B) :
always_raises c -> always_raises (bind c k).
Proof. intros Hc s. unfold bind. destruct (Hc s) as (e & s' & ->). by exists e, s'. Qed.

Lemma always_raises_bind_r {A B : Type} (c : M S A) (k : A -> M S B) :
(forall a, always_raises (k a)) -> always_raises (bind c k).
Proof.
intros Hk s. unfold bind. destruct (c s) as [[e|a] s']; [by exists e, s' | apply Hk].
Qed.



End Outcome.

Section ConversionFacts.
Context {H : Type} (L : PyLib) (R : Renderers H).


Lemma handler_returns_false (line : pystr) (w : World H) :
exists w', bind (logger_error line)
             (fun _ => bind traceback_print_exc (fun _ => ret false)) w = (inr false, w').
Proof. by eexists. Qed.



End ConversionFacts.



(** X12.  A failure to write the file fails the page: when [doc.save],
    respectively [doc.build], raises, the conversion returns [False]. *)
Theorem write_failure_fails_the_page {H : Type} (L : PyLib) (R : Renderers H)
    (frames : nat) (xml page_name out_path : pystr) (include_images : bool) :
  always_raises (docx_save R out_path) ->
  always_raises (pdf_build R) ->
  forall w,
    (exists w', parse_page_to_docx L R frames xml page_name out_path include_images w
                = (inr false, w'))
    /\ (exists w', parse_page_to_pdf L R frames xml page_name out_path include_images w
                   = (inr false, w')).
Proof.
  intros Hsave Hbuild w.
  assert (forall (body : M (World H) bool) line,
             always_raises body ->
             exists w', try_except body
                          (fun _ => bind (logger_error line)
                                      (fun _ => bind traceback_print_exc
                                                  (fun _ => ret false))) w
                        = (inr false, w')) as Htry.
  { intros body line Hb. unfold try_except. destruct (Hb w) as (e & w1 & ->).
    apply handler_returns_false. }
  split; apply Htry.
  - unfold ET_fromstring. destruct (fromstring L xml) as [root|].
    + do 4 (apply always_raises_bind_r; intros ?). by apply always_raises_bind_l.
    + apply always_raises_bind_l. intros s. by eexists _, _.
  - unfold ET_fromstring. destruct (fromstring L xml) as [root|].
    + do 5 (apply always_raises_bind_r; intros ?). by apply always_raises_bind_l.
    + apply always_raises_bind_l. intros s. by eexists _, _.
Qed.

Lemma write_failure_fails_the_page_witness :
  always_raises (docx_save Cases.unwritable (py "page.docx"))
  /\ always_raises (pdf_build Cases.unwritable)
  /\ (forall w : World unit,
        (exists w', parse_page_to_docx Cases.lib Cases.unwritable 900 Cases.page_xml
                      (py "Notes") (py "page.docx") true w = (inr false, w'))
        /\ (exists w', parse_page_to_pdf Cases.lib Cases.unwritable 900 Cases.page_xml
                         (py "Notes") (py "page.docx") true w = (inr false, w'))).
Proof.
  assert (Hs : always_raises (docx_save Cases.unwritable (py "page.docx")))
    by (intros w; by eexists _, _).
  assert (Hb : always_raises (pdf_build Cases.unwritable))
    by (intros w; by eexists _, _).
  exact (conj Hs (conj Hb
           (write_failure_fails_the_page Cases.lib Cases.unwritable 900 Cases.page_xml
              (py "Notes") (py "page.docx") true Hs Hb))).
Defined.

(** ** The grids of the table renderers *)

Lemma max_len_bound (rows_data : list (list pystr)) :
  Forall (fun row => (length row <= max_len rows_data)%nat) rows_data.
Proof.
  induction rows_data as [|row rows IH]; [constructor|].
  cbn [max_len foldr]. fold (max_len rows). constructor; [lia|].
  eapply Forall_impl; [exact IH|]. simpl. intros r Hr. lia.
Qed.

Lemma fill_cells_spec (i : nat) (cells : list pystr) :
  forall j wt done rest,
    wt !! i = Some (done ++ rest) ->
    length done = j ->
    (length cells <= length rest)%nat ->
    fill_cells i j cells wt = <[i := done ++ cells ++ drop (length cells) rest]> wt.
Proof.
  induction cells as [|c cells IH]; intros j wt done rest Hrow Hj Hlen.
  - cbn [fill_cells length drop app]. symmetry. by apply list_insert_id.
  - destruct rest as [|t rest]; [simpl in Hlen; lia|].
    cbn [fill_cells]. unfold set_cell. rewrite Hrow.
    replace (if nonempty c then c else []) with c by (by destruct c).
    assert ((j <? length (done ++ t :: rest))%nat = true) as ->
      by (apply Nat.ltb_lt; rewrite length_app; simpl; lia).
    rewrite insert_app_r_alt by lia.
    replace (j - length done)%nat with 0%nat by lia. cbn [insert list_insert].
    rewrite (IH (S j) _ (done ++ [c]) rest).
    + rewrite list_insert_insert_eq, <- app_assoc. done.
    + rewrite list_lookup_insert_eq by (by eapply lookup_lt_Some).
      by rewrite <- app_assoc.
    + rewrite length_app. simpl. lia.
    + simpl in Hlen. lia.
Qed.

Lemma fill_rows_spec (m : nat) (rows : list (list pystr)) :
  forall i done n,
    length done = i ->
    (length rows <= n)%nat ->
    Forall (fun row => (length row <= m)%nat) rows ->
    fill_rows i rows (done ++ replicate n (replicate m []))
    = done ++ ((fun row => row ++ replicate (m - length row) []) <$> rows)
           ++ replicate (n - length rows) (replicate m []).
Proof.
  induction rows as [|row rows IH]; intros i done n Hi Hn Hall.
  - cbn [fill_rows fmap list_fmap app length]. by rewrite Nat.sub_0_r.
  - destruct n as [|n]; [simpl in Hn; lia|].
    apply Forall_cons in Hall as [Hrow Hall].
    cbn [fill_rows replicate].
    rewrite (fill_cells_spec i row 0 _ [] (replicate m [])).
    + cbn [app]. rewrite drop_replicate, insert_app_r_alt by lia.
      replace (i - length done)%nat with 0%nat by lia. cbn [insert list_insert].
      rewrite (cons_middle _ done), app_assoc.
      rewrite (IH (S i) _ n); [|rewrite length_app; simpl; lia|simpl in Hn; lia|done].
      rewrite <- app_assoc. done.
    + rewrite lookup_app_r by lia. by replace (i - length done)%nat with 0%nat by lia.
    + done.
    + by rewrite length_replicate.
Qed.


(** X13.  The Word table built cell by cell holds the extracted rows,
    each padded on the right with empty cells to the length of the
    longest row. *)
Theorem word_table_is_padded_grid (rows_data : list (list pystr)) :
  word_table rows_data
  = (fun row => row ++ replicate (max_len rows_data - length row) []) <$> rows_data.
Proof.
  unfold word_table, add_table.
  pose proof (fill_rows_spec (max_len rows_data) rows_data 0 [] (length rows_data)
                eq_refl (le_n _) (max_len_bound rows_data)) as Hfill.
  cbn [app] in Hfill. rewrite Hfill, Nat.sub_diag. cbn [replicate]. by rewrite app_nil_r.
Qed.






Section PdfTableFacts.
Context (RL : ReportLab) (L : PyLib).






End PdfTableFacts.



(** A cell text that [Paragraph] rejects: the table is not added, and
    a warning is written. *)
Example pdf_table_rejected_text_adds_nothing :
  (_extract_table_data_enhanced Reference.lib Cases.table_marked)
  = [[py "x"; py "a<b"]]
  /\ Pdf._process_table_for_pdf Cases.reportlab Reference.lib Cases.table_marked
       Cases.empty_output
     = (inr tt, mkOutput [] [py "PDF table rendering failed"]).
Proof. split; by vm_compute. Qed.

(** ** Temporary files *)

Lemma remove_temp_lookup (locked : pystr -> bool) (fs : gmap pystr pybytes)
    (temp_file p : pystr) :
  remove_temp locked fs temp_file !! p
  = if decide (p = temp_file /\ locked temp_file = false) then None else fs !! p.
Proof.
  unfold remove_temp. destruct (fs !! temp_file) eqn:E.
  - destruct (locked temp_file) eqn:El.
    + rewrite decide_False; [done|]. intros [_ ?]. congruence.
    + destruct (decide (p = temp_file)) as [->|Hne].
      * rewrite decide_True by done. apply lookup_delete_eq.
      * rewrite decide_False by tauto. by apply lookup_delete_ne.
  - destruct (decide _) as [[-> _]|]; done.
Qed.

Lemma cleanup_lookup (locked : pystr -> bool) (temps : list pystr) :
  forall (fs : gmap pystr pybytes) (p : pystr),
    foldl (remove_temp locked) fs temps !! p
    = if decide (p ∈ temps /\ locked p = false) then None else fs !! p.
Proof.
  induction temps as [|t temps IH]; intros fs p; cbn [foldl].
  - rewrite decide_False; [done|]. by intros [?%elem_of_nil _].
  - rewrite IH, remove_temp_lookup.
    destruct (decide (p ∈ temps /\ locked p = false)) as [[Hin Hl]|Hno].
    + rewrite decide_True; [done|]. split; [by apply list_elem_of_further | done].
    + destruct (decide (p = t /\ locked t = false)) as [[-> Hl]|Hno'].
      * rewrite decide_True; [done|]. split; [apply list_elem_of_here | done].
      * rewrite decide_False; [done|]. intros [[->|Hin]%elem_of_cons Hl]; tauto.
Qed.

(** X15.  Cleaning up removes every tracked temporary file that can be
    removed, touches no other file, creates none, and forgets the tracked
    paths. *)
Theorem cleanup_removes_only_temp_files (locked : pystr -> bool)
    (fs : gmap pystr pybytes) (temp_files : list pystr) (p : pystr) :
  (cleanup_temp_files locked (fs, temp_files)).2 = []
  /\ (p ∈ temp_files -> locked p = false ->
      (cleanup_temp_files locked (fs, temp_files)).1 !! p = None)
  /\ (p ∉ temp_files ->
      (cleanup_temp_files locked (fs, temp_files)).1 !! p = fs !! p)
  /\ (fs !! p = None -> (cleanup_temp_files locked (fs, temp_files)).1 !! p = None).
Proof.
  unfold cleanup_temp_files. cbn [fst snd]. rewrite cleanup_lookup.
  split; [done|]. split; [|split].
  - intros Hin Hl. by rewrite decide_True.
  - intros Hout. rewrite decide_False; [done | tauto].
  - intros Hnone. by destruct (decide _).
Qed.

Lemma cleanup_removes_only_temp_files_witness :
  (py "tmp1.png" ∈ [py "tmp1.png"; py "tmp2.jpg"])
  /\ (py "page.docx" ∉ [py "tmp1.png"; py "tmp2.jpg"])
  /\ (cleanup_temp_files (fun _ => false)
        (<[py "tmp1.png" := [x00]]> (<[py "page.docx" := [x01]]> ∅),
         [py "tmp1.png"; py "tmp2.jpg"])).1 !! py "tmp1.png" = None
  /\ (cleanup_temp_files (fun _ => false)
        (<[py "tmp1.png" := [x00]]> (<[py "page.docx" := [x01]]> ∅),
         [py "tmp1.png"; py "tmp2.jpg"])).1 !! py "page.docx" = Some [x01].
Proof.
  assert (Hin : py "tmp1.png" ∈ [py "tmp1.png"; py "tmp2.jpg"]) by compute_done.
  assert (Hout : py "page.docx" ∉ [py "tmp1.png"; py "tmp2.jpg"]) by compute_done.
  exact (conj Hin (conj Hout
           (conj (proj1 (proj2 (cleanup_removes_only_temp_files (fun _ => false)
                                  (<[py "tmp1.png" := [x00]]> (<[py "page.docx" := [x01]]> ∅))
                                  [py "tmp1.png"; py "tmp2.jpg"] (py "tmp1.png")))
                    Hin eq_refl)
                 (proj1 (proj2 (proj2 (cleanup_removes_only_temp_files (fun _ => false)
                                  (<[py "tmp1.png" := [x00]]> (<[py "page.docx" := [x01]]> ∅))
                                  [py "tmp1.png"; py "tmp2.jpg"] (py "page.docx"))))
                    Hout)))).
Defined.

(** ** app.py: the grid and its segments *)

Section AppFacts.
Context (L : PyLib).

Lemma keep_unique_spec (rows : list (list pystr)) :
forall st : list (list pystr) * gset pystr,
  NoDup (py_join (py "|") <$> st.1) ->
  (forall s, s ∈ st.2 <-> s ∈ py_join (py "|") <$> st.1) ->
  exists kept,
    (foldl App.keep_unique st rows).1 = st.1 ++ kept
    /\ kept `sublist_of` rows
    /\ NoDup (py_join (py "|") <$> (st.1 ++ kept))
    /\ (forall row, row ∈ rows -> py_join (py "|") row ∈ py_join (py "|") <$> (st.1 ++ kept)).
Proof.
induction rows as [|row rows IH]; intros st Hnd Hseen; cbn [foldl].
- exists []. rewrite app_nil_r. repeat split; try done. by intros row ?%elem_of_nil.
- unfold App.keep_unique at 2. cbv zeta. case_bool_decide as Hin.
  + destruct (IH st Hnd Hseen) as (kept & Hkept & Hsub & Hnd' & Hall).
    exists kept. split; [done|]. split; [by apply sublist_cons|]. split; [done|].
    intros r [->|Hr]%elem_of_cons; [|by apply Hall].
    rewrite fmap_app, elem_of_app. left. by apply Hseen.
  + destruct (IH (st.1 ++ [row], {[py_join (py "|") row]} ∪ st.2))
      as (kept & Hkept & Hsub & Hnd' & Hall).
    * cbn [fst]. rewrite fmap_app. apply NoDup_app. split; [done|]. split.
      -- intros s Hs [->|[]%elem_of_nil]%elem_of_cons. by apply Hin, Hseen.
      -- apply NoDup_singleton.
    * intros s. cbn [fst snd].
      rewrite elem_of_union, elem_of_singleton, fmap_app, elem_of_app.
      change (py_join (py "|") <$> [row]) with [py_join (py "|") row].
      rewrite list_elem_of_singleton, Hseen. tauto.
    * cbn [fst] in *. exists (row :: kept).
      rewrite <- app_assoc in Hkept, Hnd', Hall. split; [done|].
      split; [by apply sublist_skip|]. split; [done|].
      intros r [->|Hr]%elem_of_cons; [|by apply Hall].
      rewrite fmap_app, elem_of_app. right. rewrite fmap_cons. apply list_elem_of_here.
Qed.
End AppFacts.

(** X16.  The rows kept for the PDF table are rows of the input, in
    their order, with pairwise different ['|']-joins, and every input row
    has its join among them: only exact repetitions are dropped. *)
Theorem unique_rows_drops_repetitions (rows_data : list (list pystr)) :
  App.unique_rows rows_data `sublist_of` rows_data
  /\ NoDup (py_join (py "|") <$> App.unique_rows rows_data)
  /\ (forall row, row ∈ rows_data ->
        py_join (py "|") row ∈ py_join (py "|") <$> App.unique_rows rows_data).
Proof.
  unfold App.unique_rows.
  destruct (keep_unique_spec rows_data ([], ∅)) as (kept & -> & Hsub & Hnd & Hall).
  - apply NoDup_nil_2.
  - intros s. cbn [fst snd fmap list_fmap]. rewrite elem_of_empty, elem_of_nil. done.
  - done.
Qed.

Lemma unique_rows_drops_repetitions_witness :
  [py "a"; py "b"] ∈ [[py "a"; py "b"]; [py "c"]; [py "a"; py "b"]]
  /\ App.unique_rows [[py "a"; py "b"]; [py "c"]; [py "a"; py "b"]]
     = [[py "a"; py "b"]; [py "c"]]
  /\ py_join (py "|") [py "a"; py "b"]
     ∈ py_join (py "|") <$> App.unique_rows [[py "a"; py "b"]; [py "c"]; [py "a"; py "b"]].
Proof.
  assert (Hin : [py "a"; py "b"] ∈ [[py "a"; py "b"]; [py "c"]; [py "a"; py "b"]])
    by apply list_elem_of_here.
  exact (conj Hin (conj eq_refl
           (proj2 (proj2 (unique_rows_drops_repetitions
                            [[py "a"; py "b"]; [py "c"]; [py "a"; py "b"]])) _ Hin))).
Defined.

(** X17.  The grid the PDF segments are cut from is rectangular, every
    row as long as the longest cleaned row, and has at most 120 rows. *)
Theorem prepared_rows_rectangular (L : PyLib) (rows_data : list (list pystr)) :
  (length (App.prepared_rows L rows_data) <= 120)%nat
  /\ Forall (fun row => length row
                        = App.max_cols_of (App.clean_rows L (App.unique_rows rows_data)))
            (App.prepared_rows L rows_data).
Proof.
  split; [|apply prepared_rows_lengths].
  unfold App.prepared_rows. cbv zeta.
  set (cleaned := App.clean_rows L (App.unique_rows rows_data)).
  by destruct (cap_rows_sub (App.pad_row (App.max_cols_of cleaned) <$> cleaned)) as [Hlen _].
Qed.

Lemma rfind_char_bound (c : N) (s : pystr) (stop : nat) :
  (-1 <= App.rfind_char c s stop < Z.of_nat stop)%Z
  \/ (App.rfind_char c s stop = -1)%Z.
Proof.
  unfold App.rfind_char.
  assert (forall l i best,
             (-1 <= best < i)%Z \/ best = (-1)%Z -> (0 <= i)%Z ->
             let r := (fix go (i : Z) (s : pystr) (best : Z) {struct s} : Z :=
                         match s with
                         | [] => best
                         | x :: s' => go (i + 1)%Z s' (if (x =? c)%N then i else best)
                         end) i l best in
             (-1 <= r < i + Z.of_nat (length l))%Z \/ r = (-1)%Z) as Hgo.
  { induction l as [|x l IH]; intros i best Hbest Hi; cbn [length].
    - destruct Hbest; [left; lia | by right].
    - cbv zeta in *. destruct (IH (i + 1)%Z (if (x =? c)%N then i else best))
        as [Hr|Hr]; [destruct (x =? c)%N; [left; lia | destruct Hbest; [left; lia | by right]]
                    | lia | left; lia | by right]. }
  destruct (Hgo (take stop s) 0%Z (-1)%Z) as [Hr|Hr]; [by right | lia | | by right].
  left. cbv zeta in Hr. rewrite length_take in Hr. lia.
Qed.

(** X18.  A cell text cleaned for the PDF is never empty and never
    longer than 300 characters. *)
Theorem clean_cell_text_for_pdf_bounded (L : PyLib) (text : pystr) :
  (1 <= length (App._clean_cell_text_for_pdf L text) <= 300)%nat.
Proof.
  unfold App._clean_cell_text_for_pdf.
  destruct (negb (nonempty text)); [vm_compute; lia|]. cbv zeta.
  match goal with
  | |- context [(App.MAX_CELL_LENGTH <? length ?t)%nat] => generalize t
  end.
  intros t. change App.MAX_CELL_LENGTH with 300%nat.
  assert (forall u : pystr, (length u <= 300)%nat ->
            (1 <= length (if nonempty u then u else py " ") <= 300)%nat) as Hfinal.
  { intros [|x u] Hu; [vm_compute; lia | simpl in *; lia]. }
  apply Hfinal.
  destruct (300 <? length t)%nat eqn:E;
    [apply Nat.ltb_lt in E | apply Nat.ltb_ge in E; done].
  change (300 - 3)%nat with 297%nat.
  destruct (210 <? App.rfind_char 32 t 297)%Z eqn:Ep.
  - apply Z.ltb_lt in Ep. rewrite length_app, length_take.
    change (length (py "...")) with 3%nat.
    destruct (rfind_char_bound 32 t 297) as [Hb|Hb]; lia.
  - rewrite length_app, length_take. change (length (py "...")) with 3%nat. lia.
Qed.

Lemma concat_fmap_rows {A B : Type} (f : A -> B) (ls : list (list A)) :
  concat ((fun l : list A => f <$> l) <$> ls) = f <$> concat ls.
Proof.
  induction ls as [|l ls IH]; [done|].
  rewrite fmap_cons. cbn [concat]. by rewrite fmap_app, IH.
Qed.

Lemma column_bands_cover {A : Type} (n : nat) (row : list A) :
  length row = n ->
  concat ((fun b : nat * nat => take (b.2 - b.1) (drop b.1 row)) <$> App.column_bands n)
  = row.
Proof.
  intros Hlen. unfold App.column_bands. cbv zeta.
  destruct (decide (n = 0)) as [->|Hn].
  { apply nil_length_inv in Hlen. by subst. }
  assert (1 <= App.MAX_COLS_PER_SEGMENT n)%nat as Hper.
  { unfold App.MAX_COLS_PER_SEGMENT.
    destruct (n <=? 8)%nat; [lia|]. destruct (n <=? 12)%nat; lia. }
  set (per := App.MAX_COLS_PER_SEGMENT n) in *.
  unfold App.py_range. rewrite (proj2 (Nat.eqb_neq _ 0)) by lia.
  cbn [default]. unfold id. rewrite <- !list_fmap_compose.
  erewrite list_fmap_ext; [rewrite (slices_concat row per) by lia|].
  - apply take_ge. rewrite Hlen. apply ceil_div_covers. lia.
  - intros i s _. cbn [compose fst snd]. unfold App.slice. by rewrite Hlen.
Qed.

(** X19.  The tables a table element puts into the story are tables of
    its column bands, in the order of the bands, however the rendering
    ends; the bands cover the columns exactly, each row of the grid
    being its pieces put side by side.  With a library that reads the
    cell texts, and plain text, as paragraphs and builds rectangular
    tables, the table is rendered through: the rows of its tables, side
    by side, give the rows of the grid back. *)
Theorem segments_cover_every_column (RL : ReportLab) (L : PyLib) (table_idx : nat)
    (table_elem : Element) (o : Output) :
  let rows_data := App._parse_table_rows_clean L table_elem in
  let grid := App.prepared_rows L rows_data in
  let n := App.max_cols_of (App.clean_rows L (App.unique_rows rows_data)) in
  (exists T,
      tables_of (story (App.render_table RL L table_idx table_elem o).2)
      = tables_of (story o) ++ T
      /\ T `sublist_of` (band_table grid <$> App.column_bands n))
  /\ (forall row,
        row ∈ grid ->
        concat ((fun b : nat * nat => take (b.2 - b.1) (drop b.1 row))
                  <$> App.column_bands n) = row)
  /\ (accepts_plain_text RL ->
      builds_rectangular RL ->
      accepts_cells RL App.or_space grid ->
      exists o',
        App.render_table RL L table_idx table_elem o = (inr tt, o')
        /\ forall i row,
             grid !! i = Some row ->
             concat ((fun tbl : list (list pystr) => default [] (tbl !! i))
                       <$> drop (length (tables_of (story o))) (tables_of (story o')))
             = App.or_space <$> row).
Proof.
  intros rows_data grid n.
  pose proof (prepared_rows_lengths L rows_data) as Hrect.
  fold grid in Hrect. fold n in Hrect. rewrite Forall_forall in Hrect.
  split; [|split].
  - destruct (adds_render_table RL L table_idx table_elem o) as (T & HT & Htables).
    by exists T.
  - intros row Hrow. by apply column_bands_cover, Hrect.
  - intros Hplain Hbuild Hcells.
    destruct (adds_all_render_table RL L table_idx table_elem Hplain Hbuild Hcells o)
      as ([] & o' & Hrun & Htables).
    unfold band_tables, table_grid, table_columns in Htables.
    fold rows_data in Htables. fold grid in Htables. fold n in Htables.
    exists o'. split; [exact Hrun|]. intros i row Hi.
    rewrite Htables, drop_app_length, <- list_fmap_compose.
    rewrite <- (column_bands_cover n row) at 1
      by (by apply Hrect, (list_elem_of_lookup_2 _ i)).
    rewrite <- concat_fmap_rows, <- list_fmap_compose.
    f_equal. apply list_fmap_ext. intros k b _. cbn [compose].
    unfold band_table. by rewrite list_lookup_fmap, Hi.
Qed.

Lemma segments_cover_every_column_witness :
  accepts_plain_text Cases.reportlab
  /\ builds_rectangular Cases.reportlab
  /\ accepts_cells Cases.reportlab App.or_space
       (App.prepared_rows Reference.lib
          (App._parse_table_rows_clean Reference.lib Samples.table_15))
  /\ exists o',
       App.render_table Cases.reportlab Reference.lib 0 Samples.table_15 Cases.empty_output
       = (inr tt, o')
       /\ concat ((fun tbl : list (list pystr) => default [] (tbl !! 0%nat))
                    <$> tables_of (story o'))
          = py <$> Samples.fifteen.
Proof.
  assert (Hplain : accepts_plain_text Cases.reportlab) by (intros style text Ht; exact Ht).
  assert (Hbuild : builds_rectangular Cases.reportlab) by (intros flow Hf; exact Hf).
  assert (Hcells : accepts_cells Cases.reportlab App.or_space
                     (App.prepared_rows Reference.lib
                        (App._parse_table_rows_clean Reference.lib Samples.table_15)))
    by (apply reportlab_accepts_plain_cells;
        [apply plain_or_space | vm_compute; repeat constructor]).
  destruct (proj2 (proj2 (segments_cover_every_column Cases.reportlab Reference.lib 0
                            Samples.table_15 Cases.empty_output))
              Hplain Hbuild Hcells) as (o' & Hrun & Hrows).
  refine (conj Hplain (conj Hbuild (conj Hcells (ex_intro _ o' (conj Hrun _))))).
  pose proof (Hrows 0%nat (list_fmap _ _ py Samples.fifteen) eq_refl) as Hrow.
  vm_compute in Hrow. vm_compute. exact Hrow.
Defined.

Lemma table_segments_form (L : PyLib) (table_elem : Element) :
  App._parse_table_rows_clean L table_elem <> [] ->
  let rows_data := App._parse_table_rows_clean L table_elem in
  let n := App.max_cols_of (App.clean_rows L (App.unique_rows rows_data)) in
  let per := App.MAX_COLS_PER_SEGMENT n in
  (1 <= n)%nat /\ (1 <= per <= 8)%nat
  /\ App.prepared_rows L rows_data <> []
  /\ App.table_segments L table_elem
     = Some ((fun i =>
                {| App.start_col := i * per;
                   App.end_col := Nat.min (i * per + per) n;
                   App.segment_data :=
                     App.slice (i * per) (Nat.min (i * per + per) n)
                       <$> App.prepared_rows L rows_data |})
               <$> seq 0 ((n + per - 1) / per)).
Proof.
  intros Hne rows_data n per.
  destruct (prepared_grid_facts L table_elem Hne) as (Hn & Hper & Huniq & Hprep).
  cbv zeta in Hn, Hper, Huniq, Hprep.
  fold rows_data in Hn, Hper, Huniq, Hprep. fold n in Hn, Hper. fold per in Hper.
  split; [exact Hn|]. split; [exact Hper|]. split; [exact Hprep|].
  unfold App.table_segments. fold rows_data.
  assert (nonempty rows_data = true) as -> by (by destruct rows_data).
  assert (nonempty (App.unique_rows rows_data) = true) as ->
    by (by destruct (App.unique_rows rows_data)).
  cbn [negb]. fold n. fold per.
  unfold App.py_range. rewrite (proj2 (Nat.eqb_neq _ 0)) by lia.
  f_equal. rewrite <- list_fmap_compose.
  match goal with
  | |- List.filter ?f (?g <$> ?l) = ?h <$> ?l =>
      assert (forall l', List.filter f (g <$> l') = h <$> l') as Hfilter
  end.
  { assert (forall f : list pystr -> list pystr,
               nonempty (f <$> App.prepared_rows L rows_data) = true) as Hnon
      by (intros f; destruct (App.prepared_rows L rows_data); done).
    induction l' as [|i l' IH]; [done|].
    rewrite !fmap_cons. cbn [List.filter compose App.segment_data].
    rewrite Hnon. by rewrite IH. }
  apply Hfilter.
Qed.

(** X20.  Every segment of a table is between 1 and 8 columns wide, is
    not empty, and each of its rows has exactly that many cells. *)
Theorem segments_are_narrow (L : PyLib) (table_elem : Element) (segs : list App.Segment)
    (sg : App.Segment) :
  App.table_segments L table_elem = Some segs ->
  sg ∈ segs ->
  (1 <= App.segment_width sg <= 8)%nat
  /\ App.segment_data sg <> []
  /\ Forall (fun row => length row = App.segment_width sg) (App.segment_data sg).
Proof.
  intros Hsegs Hsg.
  destruct (decide (App._parse_table_rows_clean L table_elem = [])) as [Hempty|Hne].
  { unfold App.table_segments in Hsegs. rewrite Hempty in Hsegs.
    injection Hsegs as <-. by apply elem_of_nil in Hsg. }
  destruct (table_segments_form L table_elem Hne) as (Hn & Hper & Hprep & Hform).
  cbv zeta in *. rewrite Hform in Hsegs. injection Hsegs as <-.
  pose proof (prepared_rows_lengths L (App._parse_table_rows_clean L table_elem))
    as Hrect.
  set (n := App.max_cols_of _) in *. set (per := App.MAX_COLS_PER_SEGMENT n) in *.
  apply list_elem_of_fmap in Hsg as (i & -> & Hi).
  apply elem_of_seq in Hi as [_ Hi]. cbn [Nat.add] in Hi.
  destruct (ceil_div_covers n per ltac:(lia)) as [_ Hceil].
  assert (i * per < n)%nat as Hstart by nia.
  unfold App.segment_width. cbn [App.start_col App.end_col App.segment_data].
  split; [lia|]. split.
  - destruct (App.prepared_rows L _); done.
  - apply Forall_fmap. eapply Forall_impl; [exact Hrect|]. simpl. intros row Hrow.
    unfold App.slice. rewrite length_take, length_drop. lia.
Qed.

Lemma segments_are_narrow_witness :
  exists segs sg,
    App.table_segments Reference.lib Samples.table_15 = Some segs
    /\ sg ∈ segs
    /\ (1 <= App.segment_width sg <= 8)%nat
    /\ App.segment_data sg <> []
    /\ Forall (fun row => length row = App.segment_width sg) (App.segment_data sg).
Proof.
  assert (exists segs sg,
             App.table_segments Reference.lib Samples.table_15 = Some segs /\ sg ∈ segs)
    as (segs & sg & Hs & Hin).
  { destruct (App.table_segments Reference.lib Samples.table_15) as [[|sg segs]|] eqn:E;
      [vm_compute in E; discriminate| |vm_compute in E; discriminate].
    exists (sg :: segs), sg. split; [reflexivity | apply list_elem_of_here]. }
  exists segs, sg.
  exact (conj Hs (conj Hin
           (segments_are_narrow Reference.lib Samples.table_15 segs sg Hs Hin))).
Defined.

(** The segments and the rendering: whatever a table puts into the
    story is the data of one of its segments, the empty cells shown as
    spaces, and the tables come in the order of the segments. *)
Lemma segments_are_bands (L : PyLib) (table_elem : Element) (segs : list App.Segment) :
  let rows_data := App._parse_table_rows_clean L table_elem in
  App.table_segments L table_elem = Some segs ->
  (fun sg => (fun row : list pystr => App.or_space <$> row) <$> App.segment_data sg) <$> segs
  = band_table (App.prepared_rows L rows_data)
      <$> App.column_bands
            (App.max_cols_of (App.clean_rows L (App.unique_rows rows_data))).
Proof.
  intros rows_data Hsegs.
  destruct (decide (App._parse_table_rows_clean L table_elem = [])) as [Hempty|Hne].
  { unfold App.table_segments in Hsegs. subst rows_data. rewrite Hempty in *.
    by injection Hsegs as <-. }
  destruct (table_segments_form L table_elem Hne) as (Hn & Hper & _ & Hform).
  cbv zeta in Hn, Hper, Hform. fold rows_data in Hn, Hper, Hform.
  rewrite Hform in Hsegs. injection Hsegs as <-.
  unfold App.column_bands, App.py_range. cbv zeta.
  rewrite (proj2 (Nat.eqb_neq _ 0)) by lia. cbn [default]. unfold id.
  rewrite <- !list_fmap_compose. apply list_fmap_ext. intros i k _.
  cbn [compose App.segment_data]. apply segment_texts.
Qed.

Lemma rendered_tables_are_segments (RL : ReportLab) (L : PyLib) (table_idx : nat)
    (table_elem : Element) (segs : list App.Segment) (o : Output) :
  App.table_segments L table_elem = Some segs ->
  exists T,
    tables_of (story (App.render_table RL L table_idx table_elem o).2)
    = tables_of (story o) ++ T
    /\ T `sublist_of`
         ((fun sg => (fun row : list pystr => App.or_space <$> row) <$> App.segment_data sg)
            <$> segs).
Proof.
  intros Hsegs. rewrite (segments_are_bands L table_elem segs Hsegs).
  destruct (adds_render_table RL L table_idx table_elem o) as (T & HT & Htables).
  by exists T.
Qed.

(** ** Text units and file names *)

(** X21.  With the elements of [xml.etree.ElementTree] a text paragraph
    is never indented: its indent level is 0 whatever lists enclose the
    element.  The paragraph's text is not empty and has no white space at
    its ends; an element without text gives no paragraph. *)
Theorem text_paragraph_flat (L : PyLib) (text_elem : Node) :
  (text (n_elem text_elem) = None -> text_paragraph L etree_has_getparent text_elem = None)
  /\ forall t indent,
       text_paragraph L etree_has_getparent text_elem = Some (t, indent) ->
       indent = 0%Z /\ t <> []
       /\ (forall c, head t = Some c -> isspace c = false)
       /\ (forall c, last t = Some c -> isspace c = false).
Proof.
  unfold text_paragraph. split; [by intros ->|].
  intros t indent. destruct (text (n_elem text_elem)) as [[|c v]|]; try done.
  cbv zeta. destruct (nonempty (py_strip (_clean_text_content L (c :: v)))) eqn:E; [|done].
  intros [= <- <-].
  split; [|split; [|split]].
  2: intros Ht; rewrite Ht in E; done.
  2: intros x Hx; apply (clean_text_content_ends L (c :: v)); by left.
  2: intros x Hx; apply (clean_text_content_ends L (c :: v)); by right.
  unfold _get_text_indent_level. by destruct (n_ancestors text_elem).
Qed.

Lemma text_paragraph_flat_witness :
  text_paragraph Reference.lib etree_has_getparent Cases.cell_T_node
  = Some (py "in the cell", 0%Z)
  /\ (0 = 0)%Z /\ py "in the cell" <> []
  /\ (forall c, head (py "in the cell") = Some c -> isspace c = false)
  /\ (forall c, last (py "in the cell") = Some c -> isspace c = false).
Proof.
  assert (Hp : text_paragraph Reference.lib etree_has_getparent Cases.cell_T_node
               = Some (py "in the cell", 0%Z)) by reflexivity.
  exact (conj Hp (proj2 (text_paragraph_flat Reference.lib Cases.cell_T_node) _ _ Hp)).
Defined.

Example indent_with_parent_links :
  _get_text_indent_level Reference.lib true
    {| n_path := [0; 0]%nat;
       n_elem := Samples.cell_T;
       n_ancestors := [Samples.elem "{one}OE" [];
                       mkElement (TagStr (py "{one}List")) {[ py "indent" := py "2" ]}
                         None None []] |}
  = 2%Z.
Proof. reflexivity. Qed.

(** X22.  A sanitized name is never empty and never longer than 100
    characters, does not start with white space, and holds only
    characters that are alphanumeric or one of space, ['-'], ['_'],
    ['.']: a path separator never gets into a file or folder name. *)
Theorem safe_name_is_safe (isalnum : N -> bool) (s : pystr) :
  (forall c, c ∈ unnamed -> isalnum c = true) ->
  (1 <= length (safe isalnum s) <= 100)%nat
  /\ (forall c, c ∈ safe isalnum s -> isalnum c = true \/ c ∈ py " -_.")
  /\ (forall c, head (safe isalnum s) = Some c -> isspace c = false)
  /\ (forall c, isalnum c = false -> c ∉ py " -_." -> c ∉ safe isalnum s).
Proof.
  intros Hdefault. unfold safe. cbv zeta.
  set (src := if nonempty s then s else unnamed).
  set (kept := List.filter (fun c => isalnum c || char_in c (py " -_.")) src).
  clearbody src.
  assert (forall c, c ∈ take 100 (py_strip kept) -> isalnum c = true \/ c ∈ py " -_.") as Hkept.
  { intros c Hc. assert (c ∈ kept) as Hin.
    { destruct (py_strip_factor kept) as (a & b & Hf).
      rewrite Hf, !elem_of_app. right. left.
      rewrite <- (take_drop 100 (py_strip kept)). apply elem_of_app. by left. }
    unfold kept in Hin. apply list_elem_of_In, filter_In in Hin as [_ Hok].
    apply orb_true_iff in Hok as [?|Hok]; [by left|].
    right. unfold char_in in Hok. by apply bool_decide_eq_true in Hok. }
  assert (forall c, c ∈ (if nonempty (take 100 (py_strip kept))
                         then take 100 (py_strip kept) else unnamed) ->
                    isalnum c = true \/ c ∈ py " -_.") as Hall.
  { intros c. destruct (nonempty (take 100 (py_strip kept))); [apply Hkept|].
    intros Hc. left. by apply Hdefault. }
  split; [|split; [exact Hall|split]].
  - assert (length (take 100 (py_strip kept)) <= 100)%nat as Hlen
      by (rewrite length_take; lia).
    destruct (take 100 (py_strip kept)) as [|x cut]; cbn [nonempty].
    + vm_compute. lia.
    + simpl in *. lia.
  - intros c. destruct (take 100 (py_strip kept)) as [|x cut] eqn:E; cbn [nonempty].
    + by intros [= <-].
    + intros [= <-]. apply (py_strip_ends kept). left.
      destruct (py_strip kept); [done|]. by injection E as -> _.
  - intros c Hal Hsep Hc. destruct (Hall c Hc); [congruence | done].
Qed.

Lemma safe_name_is_safe_witness :
  (forall c, c ∈ unnamed -> Cases.isalnum c = true)
  /\ safe Cases.isalnum (py "a/b:c") = py "abc"
  /\ safe Cases.isalnum (py "///") = unnamed
  /\ (1 <= length (safe Cases.isalnum (py "a/b:c")) <= 100)%nat
  /\ (47%N ∉ safe Cases.isalnum (py "a/b:c")).
Proof.
  assert (Hd : forall c, c ∈ unnamed -> Cases.isalnum c = true).
  { intros c. unfold unnamed. rewrite !elem_of_cons, elem_of_nil.
    intros [->|[->|[->|[]]]]; reflexivity. }
  exact (conj Hd (conj eq_refl (conj eq_refl
           (conj (proj1 (safe_name_is_safe Cases.isalnum (py "a/b:c") Hd))
                 (proj2 (proj2 (proj2 (safe_name_is_safe Cases.isalnum (py "a/b:c") Hd)))
                    47%N eq_refl ltac:(compute_done)))))).
Defined.
